(** * Resume matcher: text extraction and JSON recovery

    A shallow embedding of [main.py]: [extract_text_from_file],
    [convert_to_single_string], [clean_json_string] (with its inner
    [convert_to_snake_case]) and the error handling of [match_resume].

    Modelling conventions.
    - A Python [str] is a list of characters; characters are the code
      points below 256 (the Standard Library's [ascii]), on which
      [str.isspace], [str.isupper] and [str.lower] are written out
      exactly. Strings with other characters are outside the model.
    - Python values are the closed variant [pyvalue]; a [dict] is an
      association list in insertion order.
    - An exception is a value of [exn]; code that may raise returns a
      [result].
    - The library functions the program calls ([json.loads],
      [ast.literal_eval], PyPDF2, python-docx, UTF-8 decoding) are not
      part of the program: they are the fields of the records [Parsers]
      and [Readers], and every theorem holds for all of them. The
      module [Samples] gives concrete ones for the examples.
    - What depends on the interpreter, the room its recursion limit
      leaves for the recursive walk and the text of two messages, is the
      record [Interpreter]; every theorem holds for all of them. *)

From Stdlib Require Import List Ascii String Bool Arith ZArith Lia.
Import ListNotations.

Open Scope list_scope.
Open Scope bool_scope.

(* ================================================================= *)
(** ** Strings *)

Definition pystr := list ascii.

(** [py "abc"] is the Python string ['abc']. *)
Definition py (s : string) : pystr := list_ascii_of_string s.

Definition chr (n : nat) : ascii := ascii_of_nat n.
Definition ord (c : ascii) : nat := nat_of_ascii c.

Definition NL : ascii := chr 10.        (* line feed *)
Definition SP : ascii := chr 32.        (* space *)
Definition DQ : ascii := chr 34.        (* double quote *)
Definition SQ : ascii := chr 39.        (* single quote *)
Definition BSL : ascii := chr 92.       (* backslash *)
Definition USCORE : ascii := chr 95.    (* underscore *)
Definition BTICK : ascii := chr 96.     (* backtick *)

Definition pystr_eqb (a b : pystr) : bool :=
  if list_eq_dec ascii_dec a b then true else false.

(** [str.isspace] on one character: U+0009..U+000D, U+001C..U+0020,
    U+0085 and U+00A0 are the white-space code points below 256. *)
Definition isspace (c : ascii) : bool :=
  let n := ord c in
  ((9 <=? n) && (n <=? 13)) || ((28 <=? n) && (n <=? 32))
  || (n =? 133) || (n =? 160).

(** The regular-expression class [[A-Z]]. *)
Definition is_AZ (c : ascii) : bool :=
  let n := ord c in (65 <=? n) && (n <=? 90).

(** [str.isupper] on one character, the upper-case letters: [A-Z], and
    U+00C0..U+00DE without the multiplication sign U+00D7. These are the
    characters [str.lower] changes, each into the code point 32 above. *)
Definition is_upper (c : ascii) : bool :=
  let n := ord c in
  is_AZ c || ((192 <=? n) && (n <=? 222) && negb (n =? 215)).

Definition lower_char (c : ascii) : ascii :=
  if is_upper c then chr (ord c + 32) else c.

(** [s.lower()] *)
Definition lower (s : pystr) : pystr := map lower_char s.

(** [s.startswith(p)] *)
Fixpoint startswith (p s : pystr) : bool :=
  match p, s with
  | [], _ => true
  | _ :: _, [] => false
  | a :: p', b :: s' => Ascii.eqb a b && startswith p' s'
  end.

(** [s.endswith(p)] *)
Definition endswith (p s : pystr) : bool := startswith (rev p) (rev s).

(** [s.lstrip()], [s.rstrip()], [s.strip()] *)
Fixpoint lstrip (s : pystr) : pystr :=
  match s with
  | [] => []
  | c :: t => if isspace c then lstrip t else s
  end.

Definition rstrip (s : pystr) : pystr := rev (lstrip (rev s)).

Definition strip (s : pystr) : pystr := rstrip (lstrip s).

(** [sep.join(parts)] *)
Fixpoint join (sep : pystr) (parts : list pystr) : pystr :=
  match parts with
  | [] => []
  | [w] => w
  | w :: rest => w ++ sep ++ join sep rest
  end.

(** [s.split()]: one left-to-right scan; [word] holds the characters of
    the word being read, which is emitted at the next white space or at
    the end of the string. *)
Definition flush (word : pystr) : list pystr :=
  match word with [] => [] | _ => [word] end.

Fixpoint split_from (word : pystr) (s : pystr) : list pystr :=
  match s with
  | [] => flush word
  | c :: t =>
      if isspace c then flush word ++ split_from [] t
      else split_from (word ++ [c]) t
  end.

Definition split (s : pystr) : list pystr := split_from [] s.

(* ================================================================= *)
(** ** [convert_to_single_string] *)

Definition convert_to_single_string (text : pystr) : pystr :=
  join [SP] (split text).

(* ================================================================= *)
(** ** The key rule of [convert_to_snake_case]

    [re.sub(r'(?<!^)(?=[A-Z])', '_', k)] visits every position of [k]
    from left to right. The pattern matches the empty string at a
    position where the look-behind [(?<!^)] holds (the position is not
    the start of the string) and the look-ahead [(?=[A-Z])] holds (the
    next character is in [A-Z]); each match is replaced by ['_']. *)

Fixpoint sub_boundaries (at_start : bool) (k : pystr) : pystr :=
  match k with
  | [] => []
  | c :: t =>
      if negb at_start && is_AZ c
      then USCORE :: c :: sub_boundaries false t
      else c :: sub_boundaries false t
  end.

Definition snake_key (k : pystr) : pystr := lower (sub_boundaries true k).

(* ================================================================= *)
(** ** Exceptions and results *)

(** The exception classes the program can meet. [JSONDecodeError] and
    [UnicodeDecodeError] are subclasses of [ValueError];
    [IndentationError] and [TabError] of [SyntaxError];
    [KeyboardInterrupt] derives from [BaseException] only. *)
Inductive exc_class : Type :=
| JSONDecodeError
| SyntaxError
| IndentationError
| TabError
| ValueError
| UnicodeDecodeError
| TypeError
| AttributeError
| RecursionError
| MemoryError
| LibraryError
| KeyboardInterrupt.

Inductive exn : Type :=
| HTTPException (status_code : Z) (detail : pystr)
| PyExc (cls : exc_class) (msg : pystr).

(** [isinstance(e, Exception)] *)
Definition is_Exception (e : exn) : bool :=
  match e with
  | PyExc KeyboardInterrupt _ => false
  | _ => true
  end.

(** [isinstance(e, (json.JSONDecodeError, SyntaxError))] *)
Definition is_parse_error (e : exn) : bool :=
  match e with
  | PyExc JSONDecodeError _ | PyExc SyntaxError _
  | PyExc IndentationError _ | PyExc TabError _ => true
  | _ => false
  end.

Inductive result (A : Type) : Type :=
| Ok (a : A)
| Raise (e : exn).

Arguments Ok {A} a.
Arguments Raise {A} e.

Definition bind {A B : Type} (r : result A) (k : A -> result B) : result B :=
  match r with
  | Ok a => k a
  | Raise e => Raise e
  end.

Notation "x <- r ;; k" := (bind r (fun x => k))
  (at level 61, r at next level, right associativity).

(* ================================================================= *)
(** ** Python values *)

(** What [json.loads] and [ast.literal_eval] can return. A float is kept
    as its 64-bit pattern; a dict is the list of its items in insertion
    order. *)
Unset Elimination Schemes.
Inductive pyvalue : Type :=
| PyNone
| PyBool (b : bool)
| PyInt (z : Z)
| PyFloat (bits : Z)
| PyStr (s : pystr)
| PyBytes (b : list Byte.byte)
| PyList (items : list pyvalue)
| PyTuple (items : list pyvalue)
| PySet (items : list pyvalue)
| PyDict (items : list (pyvalue * pyvalue)).
Set Elimination Schemes.

(** [k0 == k] for a key [k0] of a dict and a string [k]. *)
Definition key_is (k0 : pyvalue) (k : pystr) : bool :=
  match k0 with
  | PyStr s => pystr_eqb s k
  | _ => false
  end.

(** [d[k] = v] for a string key: an existing key keeps its place and gets
    the new value, a new key goes to the end. *)
Fixpoint dict_set (d : list (pyvalue * pyvalue)) (k : pystr) (v : pyvalue)
  : list (pyvalue * pyvalue) :=
  match d with
  | [] => [(PyStr k, v)]
  | (k0, v0) :: rest =>
      if key_is k0 k then (k0, v) :: rest
      else (k0, v0) :: dict_set rest k v
  end.

(** [d.get(k)] for a string key. *)
Fixpoint dict_get (d : list (pyvalue * pyvalue)) (k : pystr) : option pyvalue :=
  match d with
  | [] => None
  | (k0, v0) :: rest => if key_is k0 k then Some v0 else dict_get rest k
  end.

(* ================================================================= *)
(** ** [convert_to_snake_case]

    The dict comprehension evaluates, item by item, the key expression
    (where [re.sub] raises [TypeError] on a key that is not a [str]),
    then the value expression, and stores the pair in the new dict. A
    list is rebuilt element by element; anything else, tuples and sets
    included, is returned as it is.

    The function calls itself once per level of nesting, and the
    interpreter raises [RecursionError] at a call that its recursion
    limit leaves no room for. *)

(** What the interpreter decides for the walk: the number of levels of
    nested calls of [convert_to_snake_case] that the recursion limit
    leaves room for below the call of line 103 (a level being one call of
    the function with the calls its body makes: the comprehension and
    [re.sub]), and two messages that depend on the release of CPython. *)
Record Interpreter : Type := {
  recursion_room : nat;
  recursion_message : pystr;
  re_sub_message : pyvalue -> pystr
}.

(** The [TypeError] of [re.sub] on a key [k] that is not a [str]. *)
Definition re_sub_type_error (I : Interpreter) (k : pyvalue) : exn :=
  PyExc TypeError (re_sub_message I k).

(** The [RecursionError] of a call beyond the recursion limit. *)
Definition recursion_error (I : Interpreter) : exn :=
  PyExc RecursionError (recursion_message I).

(** The dict comprehension of lines 75-78, for the walk [convert]. *)
Definition dict_comprehension (I : Interpreter)
                              (convert : pyvalue -> result pyvalue)
  : list (pyvalue * pyvalue) -> list (pyvalue * pyvalue) -> result pyvalue :=
  fix comprehension its acc :=
    match its with
    | [] => Ok (PyDict acc)
    | (k, v) :: rest =>
        match k with
        | PyStr ks =>
            match convert v with
            | Ok cv => comprehension rest (dict_set acc (snake_key ks) cv)
            | Raise e => Raise e
            end
        | _ => Raise (re_sub_type_error I k)
        end
    end.

(** The list comprehension of line 80. *)
Definition list_comprehension (convert : pyvalue -> result pyvalue)
  : list pyvalue -> list pyvalue -> result pyvalue :=
  fix comprehension its acc :=
    match its with
    | [] => Ok (PyList acc)
    | item :: rest =>
        match convert item with
        | Ok y => comprehension rest (acc ++ [y])
        | Raise e => Raise e
        end
    end.

(** [depth] is the number of levels of nested calls that the recursion
    limit still leaves room for below this call: with [depth = 0] the
    call itself runs, and every call it makes of itself raises
    [RecursionError]. *)
Fixpoint convert_to_snake_case (I : Interpreter) (depth : nat)
                               (obj : pyvalue) {struct obj}
  : result pyvalue :=
  let nested := fun v =>
    match depth with
    | O => Raise (recursion_error I)
    | S room => convert_to_snake_case I room v
    end in
  match obj with
  | PyDict items => dict_comprehension I nested items []
  | PyList items => list_comprehension nested items []
  | other => Ok other
  end.

(** A call of the walk made by a walk that runs at [depth]. *)
Definition nested_call (I : Interpreter) (depth : nat) (v : pyvalue)
  : result pyvalue :=
  match depth with
  | O => Raise (recursion_error I)
  | S room => convert_to_snake_case I room v
  end.

(* ================================================================= *)
(** ** De-fencing *)

Definition FENCE : pystr := [BTICK; BTICK; BTICK].

(** The test of line 84 on the stripped input. *)
Definition fenced (json_string : pystr) : bool :=
  startswith FENCE (strip json_string) && endswith FENCE (strip json_string).

(** The text after the first line feed of [s], if there is one. *)
Fixpoint after_newline (s : pystr) : option pystr :=
  match s with
  | [] => None
  | c :: t => if Ascii.eqb c NL then Some t else after_newline t
  end.

(** The second alternative of the pattern, three backticks and [$],
    matches at the head of [t] when [t] is the fence alone or the fence
    and one final line feed. *)
Definition at_end_fence (t : pystr) : bool :=
  pystr_eqb t FENCE || pystr_eqb t (FENCE ++ [NL]).

(** The scan of [re.sub] once the start of the string is behind: only
    the second alternative can match. *)
Fixpoint sub_end_fence (t : pystr) : pystr :=
  match t with
  | [] => []
  | c :: r => if at_end_fence t then skipn 3 t else c :: sub_end_fence r
  end.

(** [re.sub] of line 85, with [re.S] and the empty replacement. At the
    start of the string the first alternative is tried first: the fence,
    then lazily anything up to the first line feed. *)
Definition re_sub_fence (t : pystr) : pystr :=
  if startswith FENCE t then
    match after_newline (skipn 3 t) with
    | Some rest => sub_end_fence rest
    | None => sub_end_fence t
    end
  else sub_end_fence t.

(** The value of [json_string] after lines 84-85. *)
Definition working_string (json_string : pystr) : pystr :=
  if fenced json_string then re_sub_fence (strip json_string)
  else json_string.

(* ================================================================= *)
(** ** The cleaning steps of the parsing attempts *)

(** Replace, from left to right, every backslash followed by a character
    of [second] by [new]: [str.replace] with a two-character needle, and
    [re.sub] with a backslash and a class. *)
Fixpoint sub_escape (second : ascii -> bool) (new : pystr) (s : pystr) : pystr :=
  match s with
  | c1 :: ((c2 :: t2) as t1) =>
      if Ascii.eqb c1 BSL && second c2 then new ++ sub_escape second new t2
      else c1 :: sub_escape second new t1
  | _ => s
  end.

(** [re.sub(r'\\n\s*', '', s)]: a backslash and the letter n are removed
    with all the white space that follows; [skipping] is true while that
    white space is consumed. *)
Fixpoint sub_escaped_newlines (skipping : bool) (s : pystr) : pystr :=
  match s with
  | [] => []
  | c1 :: t1 =>
      if skipping && isspace c1 then sub_escaped_newlines true t1
      else
        match t1 with
        | c2 :: t2 =>
            if Ascii.eqb c1 BSL && Ascii.eqb c2 (chr 110)
            then sub_escaped_newlines true t2
            else c1 :: sub_escaped_newlines false t1
        | [] => [c1]
        end
  end.

Definition is_char (a c : ascii) : bool := Ascii.eqb c a.

(** Line 91: [replace] of a backslash and a double quote by a double
    quote, then [replace] of a backslash and the letter n by a space. *)
Definition replace_escapes (s : pystr) : pystr :=
  sub_escape (is_char (chr 110)) [SP] (sub_escape (is_char DQ) [DQ] s).

(** Line 92: [re.sub] of a backslash followed by a double quote, a single
    quote or one of the letters n, t, r, by a space. *)
Definition aggressive_cleaning (s : pystr) : pystr :=
  sub_escape
    (fun c => is_char DQ c || is_char SQ c || is_char (chr 110) c
              || is_char (chr 116) c || is_char (chr 114) c)
    [SP] s.

(* ================================================================= *)
(** ** [clean_json_string] *)

(** The two parsers of the Python library, and the interpreter that
    runs [clean_json_string]. *)
Record Parsers : Type := {
  json_loads : pystr -> result pyvalue;
  literal_eval : pystr -> result pyvalue;
  interpreter : Interpreter
}.

(** The call of line 103. *)
Definition convert_parsed (P : Parsers) (parsed_json : pyvalue)
  : result pyvalue :=
  convert_to_snake_case (interpreter P) (recursion_room (interpreter P))
                        parsed_json.

Arguments convert_parsed : simpl never.

Definition parsing_attempts (P : Parsers) : list (pystr -> result pyvalue) :=
  [ fun s => json_loads P s;
    fun s => json_loads P (sub_escaped_newlines false s);
    fun s => json_loads P (replace_escapes s);
    fun s => json_loads P (aggressive_cleaning s);
    fun s => literal_eval P s ].

Definition failure_record (json_string : pystr) : pyvalue :=
  PyDict
    [ (PyStr (py "error"), PyStr (py "Failed to parse JSON"));
      (PyStr (py "original_string"), PyStr json_string);
      (PyStr (py "error_details"), PyStr (py "All parsing attempts failed")) ].

(** The loop of lines 97-114. The first component counts the attempts
    that were called. *)
Fixpoint try_attempts (P : Parsers)
                      (attempts : list (pystr -> result pyvalue))
                      (json_string : pystr) (tried : nat)
  : nat * result pyvalue :=
  match attempts with
  | [] => (tried, Ok (failure_record json_string))
  | attempt :: rest =>
      match (parsed_json <- attempt json_string ;;
             convert_parsed P parsed_json) with
      | Ok cleaned_json => (S tried, Ok cleaned_json)
      | Raise e =>
          if is_parse_error e then try_attempts P rest json_string (S tried)
          else (S tried, Raise e)
      end
  end.

Definition clean_json_string_run (P : Parsers) (json_string : pystr)
  : nat * result pyvalue :=
  try_attempts P (parsing_attempts P) (working_string json_string) 0.

Definition clean_json_string (P : Parsers) (json_string : pystr)
  : result pyvalue :=
  snd (clean_json_string_run P json_string).

Definition attempts_tried (P : Parsers) (json_string : pystr) : nat :=
  fst (clean_json_string_run P json_string).

(* ================================================================= *)
(** ** [extract_text_from_file] *)

(** What the program uses of an upload: its name, which Starlette types
    as optional, and the bytes [file.file.read()] returns. *)
Record UploadFile : Type := {
  filename : option pystr;
  content : list Byte.byte
}.

(** The readers of the document libraries, and [str(e)] for an
    [HTTPException], which depends on the Starlette release. *)
Record Readers : Type := {
  pdf_page_texts : list Byte.byte -> result (list pystr);
  docx_paragraph_texts : list Byte.byte -> result (list pystr);
  decode_utf8 : list Byte.byte -> result pystr;
  http_exception_str : Z -> pystr -> pystr
}.

(** [str(e)] *)
Definition exn_str (R : Readers) (e : exn) : pystr :=
  match e with
  | HTTPException status_code detail => http_exception_str R status_code detail
  | PyExc _ msg => msg
  end.

(** Truth value of a string. *)
Definition truthy (s : pystr) : bool :=
  match s with [] => false | _ => true end.

(** The body of the [try] of lines 24-46. *)
Definition extract_text_body (R : Readers) (file : UploadFile) : result pystr :=
  match filename file with
  | None =>
      Raise (PyExc AttributeError
               (py "'NoneType' object has no attribute 'lower'"))
  | Some name =>
      if endswith (py ".pdf") (lower name) then
        pages <- pdf_page_texts R (content file) ;;
        Ok (join [SP] pages)
      else if endswith (py ".docx") (lower name) then
        paragraphs <- docx_paragraph_texts R (content file) ;;
        Ok (join [SP] (filter truthy paragraphs))
      else if endswith (py ".txt") (lower name) then
        decode_utf8 R (content file)
      else
        Raise (HTTPException 400 (py "Unsupported file type"))
  end.

Definition extract_text_from_file (R : Readers) (file : UploadFile)
  : result pystr :=
  match extract_text_body R file with
  | Ok text => Ok text
  | Raise e =>
      if is_Exception e
      then Raise (HTTPException 500
                    (py "Error extracting text: " ++ exn_str R e))
      else Raise e
  end.

(* ================================================================= *)
(** ** The handlers of [match_resume] *)

Record JSONResponse : Type := {
  status_code : Z;
  body : pyvalue
}.

Definition detail_body (d : pystr) : pyvalue :=
  PyDict [(PyStr (py "detail"), PyStr d)].

(** Lines 133-211. [analyse] stands for lines 138-206: the payload, the
    request to the completion service, the cleaning of its answer and
    the rendering of the result. *)
Definition match_resume (R : Readers) (analyse : pystr -> result pyvalue)
                        (resume : UploadFile) : result JSONResponse :=
  match (resume_text <- extract_text_from_file R resume ;;
         analyse (convert_to_single_string resume_text)) with
  | Ok result_json => Ok {| status_code := 200; body := result_json |}
  | Raise (HTTPException sc d) =>
      Ok {| status_code := sc; body := detail_body d |}
  | Raise e =>
      if is_Exception e
      then Ok {| status_code := 500; body := detail_body (exn_str R e) |}
      else Raise e
  end.

(* ================================================================= *)
(** ** Properties that the statements use *)

(** *** Normalized text *)

Definition blank (g : pystr) : Prop := Forall (fun c => isspace c = true) g.

Definition word (w : pystr) : Prop :=
  w <> [] /\ Forall (fun c => isspace c = false) w.

(** A word ends where the string ends or white space begins. *)
Definition word_boundary (s : pystr) : Prop :=
  match s with
  | [] => True
  | c :: _ => isspace c = true
  end.

(** [words_of s ws]: [ws] are the white-space-separated words of [s],
    the maximal runs of characters that are not white space, in order. *)
Inductive words_of : pystr -> list pystr -> Prop :=
| words_none (g : pystr) :
    blank g -> words_of g []
| words_more (g w rest : pystr) (ws : list pystr) :
    blank g -> word w -> word_boundary rest -> words_of rest ws ->
    words_of (g ++ w ++ rest) (w :: ws).

Fixpoint no_adjacent_space (s : pystr) : bool :=
  match s with
  | c1 :: ((c2 :: _) as t) =>
      negb (isspace c1 && isspace c2) && no_adjacent_space t
  | _ => true
  end.

Definition leading_space (s : pystr) : bool :=
  match s with
  | c :: _ => isspace c
  | [] => false
  end.

Definition trailing_space (s : pystr) : bool := leading_space (rev s).

(** A string that is not empty and has a character that is not white
    space at each end. *)
Definition trimmed (x : pystr) : Prop :=
  x <> [] /\ leading_space x = false /\ trailing_space x = false.

(** *** The key rule, in the words of the specification

    An underscore goes before each upper-case letter that is not the
    first character of the key, then the whole key is lower-cased. *)
Definition key_rule (k : pystr) : pystr :=
  match k with
  | [] => []
  | c :: t =>
      lower_char c
      :: flat_map (fun x => if is_upper x then [USCORE; lower_char x]
                            else [lower_char x]) t
  end.

(** The same rule for the letters of [A-Z] only: an upper-case letter
    outside [A-Z] gets no underscore. *)
Definition ascii_key_rule (k : pystr) : pystr :=
  match k with
  | [] => []
  | c :: t =>
      lower_char c
      :: flat_map (fun x => if is_AZ x then [USCORE; lower_char x]
                            else [lower_char x]) t
  end.

(** Every upper-case letter of [k] is one of [A-Z]. *)
Definition upper_in_AZ (k : pystr) : bool :=
  forallb (fun c => implb (is_upper c) (is_AZ c)) k.

(** No character of [k] is one of [A-Z]. *)
Definition no_AZ (k : pystr) : bool :=
  forallb (fun c => negb (is_AZ c)) k.

(** No character of [k] is an upper-case letter. *)
Definition no_upper (k : pystr) : bool :=
  forallb (fun c => negb (is_upper c)) k.

(** [k] is made of [a-z], [0-9] and underscores. *)
Definition is_snake_case (k : pystr) : bool :=
  forallb (fun c => let n := ord c in
                    ((97 <=? n) && (n <=? 122)) || ((48 <=? n) && (n <=? 57))
                    || (n =? 95)) k.

(** *** Shapes of values *)

(** The containers [convert_to_snake_case] walks into. *)
Definition walked (v : pyvalue) : bool :=
  match v with
  | PyDict _ | PyList _ => true
  | _ => false
  end.

Unset Elimination Schemes.

(** Every key the walk reaches (the keys of dicts nested in dicts and
    lists, not those inside tuples or sets) is a string that [str.lower]
    leaves as it is. This is weaker than being in snake_case: a key
    with a space or a punctuation mark qualifies. *)
Inductive lower_cased : pyvalue -> Prop :=
| lower_cased_dict (items : list (pyvalue * pyvalue)) :
    Forall (fun kv => exists k, fst kv = PyStr k /\ lower k = k) items ->
    Forall (fun kv => lower_cased (snd kv)) items ->
    lower_cased (PyDict items)
| lower_cased_list (items : list pyvalue) :
    Forall lower_cased items -> lower_cased (PyList items)
| lower_cased_other (v : pyvalue) :
    walked v = false -> lower_cased v.

(** Every key the walk reaches is a string in snake_case. *)
Inductive snake_cased : pyvalue -> Prop :=
| snake_cased_dict (items : list (pyvalue * pyvalue)) :
    Forall (fun kv => exists k, fst kv = PyStr k /\ is_snake_case k = true)
           items ->
    Forall (fun kv => snake_cased (snd kv)) items ->
    snake_cased (PyDict items)
| snake_cased_list (items : list pyvalue) :
    Forall snake_cased items -> snake_cased (PyList items)
| snake_cased_other (v : pyvalue) :
    walked v = false -> snake_cased v.

(** The value of the last item of [items] whose key is rewritten to
    [k'] by the key rule (underscores before the letters of [A-Z]). *)
Fixpoint last_binding (items : list (pyvalue * pyvalue)) (k' : pystr)
  : option pyvalue :=
  match items with
  | [] => None
  | (k, v) :: rest =>
      match last_binding rest k' with
      | Some later => Some later
      | None =>
          match k with
          | PyStr ks => if pystr_eqb (ascii_key_rule ks) k' then Some v
                        else None
          | _ => None
          end
      end
  end.

(** [snake_casing parsed cleaned]: [cleaned] is [parsed] with every key
    snake-cased at every depth, in the words of the specification. A
    mapping becomes the mapping of the rewritten keys to the rewritten
    values, the last item winning when two keys are rewritten alike; a
    sequence is rewritten element by element; anything else is
    unchanged. The order of the items of a mapping is left open. *)
Inductive snake_casing : pyvalue -> pyvalue -> Prop :=
| snake_casing_dict (items out : list (pyvalue * pyvalue)) :
    Forall (fun kv' => exists k', fst kv' = PyStr k') out ->
    NoDup (map fst out) ->
    (forall k' v', In (PyStr k', v') out ->
       exists v, last_binding items k' = Some v /\ snake_casing v v') ->
    (forall k' v, last_binding items k' = Some v ->
       exists v', In (PyStr k', v') out) ->
    snake_casing (PyDict items) (PyDict out)
| snake_casing_list (items out : list pyvalue) :
    Forall2 snake_casing items out ->
    snake_casing (PyList items) (PyList out)
| snake_casing_other (v : pyvalue) :
    walked v = false -> snake_casing v v.

(** The invariant of a Python dict, along the walk: no key occurs twice. *)
Inductive distinct_keys : pyvalue -> Prop :=
| distinct_keys_dict (items : list (pyvalue * pyvalue)) :
    NoDup (map fst items) ->
    Forall (fun kv => distinct_keys (snd kv)) items ->
    distinct_keys (PyDict items)
| distinct_keys_list (items : list pyvalue) :
    Forall distinct_keys items -> distinct_keys (PyList items)
| distinct_keys_other (v : pyvalue) :
    walked v = false -> distinct_keys v.

(** What [json.loads] returns: scalars, lists, and dicts whose keys are
    strings. *)
Inductive json_value : pyvalue -> Prop :=
| json_none : json_value PyNone
| json_bool (b : bool) : json_value (PyBool b)
| json_int (z : Z) : json_value (PyInt z)
| json_float (bits : Z) : json_value (PyFloat bits)
| json_str (s : pystr) : json_value (PyStr s)
| json_list (items : list pyvalue) :
    Forall json_value items -> json_value (PyList items)
| json_dict (items : list (pyvalue * pyvalue)) :
    Forall (fun kv => exists k, fst kv = PyStr k) items ->
    Forall (fun kv => json_value (snd kv)) items ->
    json_value (PyDict items).

Set Elimination Schemes.

(** The number of nested calls the walk of [obj] makes, one inside the
    other. *)
Fixpoint nesting (obj : pyvalue) : nat :=
  match obj with
  | PyDict items =>
      fold_right (fun (kv : pyvalue * pyvalue) m =>
                    Nat.max (S (let (_, v) := kv in nesting v)) m)
                 0 items
  | PyList items =>
      fold_right (fun v m => Nat.max (S (nesting v)) m) 0 items
  | _ => 0
  end.

(** An object nested [n] deep, each level with the one key [a] and the
    innermost value 1, and its JSON text. *)
Fixpoint deep_dict (n : nat) : pyvalue :=
  match n with
  | O => PyInt 1
  | S m => PyDict [(PyStr (py "a"), deep_dict m)]
  end.

Fixpoint repeat_text (piece : pystr) (n : nat) : pystr :=
  match n with
  | O => []
  | S m => piece ++ repeat_text piece m
  end.

Definition deep_text (n : nat) : pystr :=
  repeat_text (py "{" ++ [DQ] ++ py "a" ++ [DQ] ++ py ":") n
  ++ py "1" ++ repeat_text (py "}") n.

(** *** Outcomes of the parsing attempts *)

(** The attempt raises an exception that line 106 catches. *)
Definition attempt_fails (attempt : pystr -> result pyvalue) (s : pystr) : Prop :=
  exists e, attempt s = Raise e /\ is_parse_error e = true.

Definition all_attempts_fail (P : Parsers) (s : pystr) : Prop :=
  Forall (fun attempt => attempt_fails attempt s) (parsing_attempts P).

(** The four attempts that call [json.loads]. *)
Definition json_attempts (P : Parsers) : list (pystr -> result pyvalue) :=
  firstn 4 (parsing_attempts P).

Definition json_attempts_fail (P : Parsers) (s : pystr) : Prop :=
  Forall (fun attempt => attempt_fails attempt s) (json_attempts P).

(** *** File names *)

Definition supported (name : pystr) : bool :=
  endswith (py ".pdf") (lower name) || endswith (py ".docx") (lower name)
  || endswith (py ".txt") (lower name).

(* ================================================================= *)
(** ** Sample collaborators

    Concrete parsers and readers for the examples: a table of the
    answers of the Python library on the inputs the examples use. *)

Module Samples.

Definition quoted (s : pystr) : pystr := DQ :: s ++ [DQ].

(** The text of a JSON object with the keys [candidateName] and
    [scoreOutOfTen]. *)
Definition jane_text : pystr :=
  py "{" ++ quoted (py "candidateName") ++ py ": " ++ quoted (py "Jane")
  ++ py ", " ++ quoted (py "scoreOutOfTen") ++ py ": 7}".

Definition jane_parsed : pyvalue :=
  PyDict [ (PyStr (py "candidateName"), PyStr (py "Jane"));
           (PyStr (py "scoreOutOfTen"), PyInt 7) ].

(** [json.loads] reads the two objects and the object nested 600 deep,
    and rejects the other texts of the examples. *)
Definition sample_json_loads (s : pystr) : result pyvalue :=
  if pystr_eqb s jane_text then Ok jane_parsed
  else if pystr_eqb s (py "{}") then Ok (PyDict [])
  else if pystr_eqb s (deep_text 600) then Ok (deep_dict 600)
  else Raise (PyExc JSONDecodeError (py "Expecting value")).

(** [ast.literal_eval] rejects the name [foo] with a [ValueError],
    reads a dict with an integer key, and reports a [SyntaxError] on
    text that is not an expression. *)
Definition sample_literal_eval (s : pystr) : result pyvalue :=
  if pystr_eqb s (py "foo")
  then Raise (PyExc ValueError (py "malformed node or string"))
  else if pystr_eqb s (py "{1: 2}")
  then Ok (PyDict [(PyInt 1, PyInt 2)])
  else Raise (PyExc SyntaxError (py "invalid syntax")).

(** CPython 3.11 with its default recursion limit of 1000 frames: a
    level of the walk takes two frames (the function and its
    comprehension), which leaves room for fewer than 500 levels, here
    490; the messages are those of that release. *)
Definition sample_interpreter : Interpreter :=
  {| recursion_room := 490;
     recursion_message :=
       py "maximum recursion depth exceeded while calling a Python object";
     re_sub_message := fun k =>
       match k with
       | PyBytes _ => py "cannot use a string pattern on a bytes-like object"
       | _ => py "expected string or bytes-like object, got "
              ++ [SQ] ++ match k with
                         | PyNone => py "NoneType"
                         | PyBool _ => py "bool"
                         | PyInt _ => py "int"
                         | PyFloat _ => py "float"
                         | PyStr _ => py "str"
                         | PyBytes _ => py "bytes"
                         | PyList _ => py "list"
                         | PyTuple _ => py "tuple"
                         | PySet _ => py "set"
                         | PyDict _ => py "dict"
                         end ++ [SQ]
       end |}.

Definition parsers : Parsers :=
  {| json_loads := sample_json_loads;
     literal_eval := sample_literal_eval;
     interpreter := sample_interpreter |}.

(** A fenced answer whose interior is not JSON. *)
Definition fenced_text : pystr :=
  py "```json" ++ [NL] ++ py "not json at all" ++ [NL] ++ py "```".

Definition readers : Readers :=
  {| pdf_page_texts := fun _ => Ok [py ""; py "World"];
     docx_paragraph_texts := fun _ => Ok [py "Hello"; py ""; py "World"];
     decode_utf8 := fun b => Ok (map ascii_of_byte b);
     http_exception_str := fun sc d =>
       if Z.eqb sc 400 then py "400: " ++ d else py "500: " ++ d |}.

Definition upload (name : string) : UploadFile :=
  {| filename := Some (py name); content := [] |}.

End Samples.

(* ================================================================= *)
(** ** More properties that the statements use *)

(** The keys of the items of a dict, each string key normalized. *)
Definition normalized_keys (items : list (pyvalue * pyvalue)) : list pyvalue :=
  map (fun kv => match fst kv with
                 | PyStr k => PyStr (snake_key k)
                 | other => other
                 end) items.

Unset Elimination Schemes.

(** Every key the walk reaches is a string. *)
Inductive str_keyed : pyvalue -> Prop :=
| str_keyed_dict (items : list (pyvalue * pyvalue)) :
    Forall (fun kv => exists k, fst kv = PyStr k) items ->
    Forall (fun kv => str_keyed (snd kv)) items ->
    str_keyed (PyDict items)
| str_keyed_list (items : list pyvalue) :
    Forall str_keyed items -> str_keyed (PyList items)
| str_keyed_other (v : pyvalue) :
    walked v = false -> str_keyed v.

Set Elimination Schemes.

(** The class of the pattern of line 92: a double quote, a single quote
    or one of the letters n, t, r. *)
Definition escape_class (c : ascii) : bool :=
  is_char DQ c || is_char SQ c || is_char (chr 110) c
  || is_char (chr 116) c || is_char (chr 114) c.

(** [s] holds a backslash followed by a character of [second]. *)
Fixpoint has_escape (second : ascii -> bool) (s : pystr) : bool :=
  match s with
  | c1 :: ((c2 :: _) as t) =>
      (Ascii.eqb c1 BSL && second c2) || has_escape second t
  | _ => false
  end.

(** The outcome of one attempt of the loop of lines 97-107, once the
    attempts before it have failed. *)
Definition attempt_outcome (P : Parsers)
                           (attempt : pystr -> result pyvalue)
                           (json_string : pystr) : result pyvalue :=
  match (parsed_json <- attempt json_string ;;
         convert_parsed P parsed_json) with
  | Ok cleaned_json => Ok cleaned_json
  | Raise e =>
      if is_parse_error e then Ok (failure_record json_string) else Raise e
  end.

(** [file] under another name. *)
Definition renamed (file : UploadFile) (name : pystr) : UploadFile :=
  {| filename := Some name; content := content file |}.

(** The function never raises an [HTTPException]. *)
Definition raises_no_http {A B : Type} (f : A -> result B) : Prop :=
  forall a sc d, f a <> Raise (HTTPException sc d).

(* ================================================================= *)
(** ** [match_resume], with its request

    Lines 133-211 with the body of the [try] written out. Subscripting
    adds two exception classes to those of [exn]; they carry [str(e)]. *)

Inductive raised : Type :=
| Exn (e : exn)
| IndexError (msg : pystr)
| KeyError (msg : pystr).

Inductive outcome (A : Type) : Type :=
| Returned (a : A)
| Thrown (e : raised).

Arguments Returned {A} a.
Arguments Thrown {A} e.

Definition and_then {A B : Type} (o : outcome A) (k : A -> outcome B)
  : outcome B :=
  match o with
  | Returned a => k a
  | Thrown e => Thrown e
  end.

Notation "x <~ o ;; k" := (and_then o (fun x => k))
  (at level 61, o at next level, right associativity).

Definition lift {A : Type} (r : result A) : outcome A :=
  match r with
  | Ok a => Returned a
  | Raise e => Thrown (Exn e)
  end.

(** [type(v).__name__] *)
Definition type_name (v : pyvalue) : pystr :=
  match v with
  | PyNone => py "NoneType"
  | PyBool _ => py "bool"
  | PyInt _ => py "int"
  | PyFloat _ => py "float"
  | PyStr _ => py "str"
  | PyBytes _ => py "bytes"
  | PyList _ => py "list"
  | PyTuple _ => py "tuple"
  | PySet _ => py "set"
  | PyDict _ => py "dict"
  end.

(** The [AttributeError] of [v.name] when [v] has no such attribute. *)
Definition no_attribute (v : pyvalue) (name : pystr) : exn :=
  PyExc AttributeError
    (SQ :: type_name v ++ [SQ] ++ py " object has no attribute "
     ++ [SQ] ++ name ++ [SQ]).

(** [obj.get(key, default)]: only a dict has the method. *)
Definition py_get (obj : pyvalue) (key : pystr) (default : pyvalue)
  : outcome pyvalue :=
  match obj with
  | PyDict d =>
      Returned (match dict_get d key with
                | Some v => v
                | None => default
                end)
  | _ => Thrown (Exn (no_attribute obj (py "get")))
  end.

(** [k == 0] for a key of a dict: the integer 0, [False] and the two
    float zeros. *)
Definition is_zero_key (k : pyvalue) : bool :=
  match k with
  | PyInt z => Z.eqb z 0
  | PyBool b => negb b
  | PyFloat bits => Z.eqb bits 0 || Z.eqb bits (2 ^ 63)
  | _ => false
  end.

(** [obj[0]] *)
Definition py_first (obj : pyvalue) : outcome pyvalue :=
  match obj with
  | PyList (x :: _) => Returned x
  | PyList [] => Thrown (IndexError (py "list index out of range"))
  | PyTuple (x :: _) => Returned x
  | PyTuple [] => Thrown (IndexError (py "tuple index out of range"))
  | PyStr (c :: _) => Returned (PyStr [c])
  | PyStr [] => Thrown (IndexError (py "string index out of range"))
  | PyBytes (b :: _) => Returned (PyInt (Z.of_N (Byte.to_N b)))
  | PyBytes [] => Thrown (IndexError (py "index out of range"))
  | PyDict d =>
      match find (fun kv => is_zero_key (fst kv)) d with
      | Some kv => Returned (snd kv)
      | None => Thrown (KeyError (py "0"))
      end
  | other =>
      Thrown (Exn (PyExc TypeError
                     (SQ :: type_name other ++ [SQ]
                      ++ py " object is not subscriptable")))
  end.

(** Line 201: the content of the message of the first choice, with its
    three defaults. *)
Definition first_choice_content (response_json : pyvalue) : outcome pyvalue :=
  choices <~ py_get response_json (py "choices") (PyList [PyDict []]) ;;
  choice <~ py_first choices ;;
  message <~ py_get choice (py "message") (PyDict []) ;;
  py_get message (py "content") (PyStr (py "{}")).

(** Line 204: [clean_json_string] on whatever line 201 produced. The
    first method called on its argument is [strip], which [str] and
    [bytes] have; on the stripped [bytes], [startswith] refuses a [str]
    argument. *)
Definition clean_json_value (P : Parsers) (match_result : pyvalue)
  : outcome pyvalue :=
  match match_result with
  | PyStr s => lift (clean_json_string P s)
  | PyBytes _ =>
      Thrown (Exn (PyExc TypeError
        (py "startswith first arg must be bytes or a tuple of bytes, not str")))
  | other => Thrown (Exn (no_attribute other (py "strip")))
  end.

(** The remote side: the text of the system message (lines 143-180),
    [requests.post] followed by [response.json()], and the rendering of
    a [JSONResponse] body. *)
Record Service : Type := {
  system_content : pystr;
  post_chat_completions : pyvalue -> result pyvalue;
  render_json : pyvalue -> result unit
}.

(** The f-string of line 184. *)
Definition user_content (resume_string job_description experience_level : pystr)
  : pystr :=
  py "Resume Text: " ++ resume_string ++ py ". Job Description: "
  ++ job_description ++ py ", Experience Level: " ++ experience_level.

(** Lines 139-187. *)
Definition payload (S : Service)
                   (resume_string job_description experience_level : pystr)
  : pyvalue :=
  PyDict
    [ (PyStr (py "messages"),
       PyList
         [ PyDict [ (PyStr (py "role"), PyStr (py "system"));
                    (PyStr (py "content"), PyStr (system_content S)) ];
           PyDict [ (PyStr (py "role"), PyStr (py "user"));
                    (PyStr (py "content"),
                     PyStr (user_content resume_string job_description
                                         experience_level)) ] ]) ].

(** The body of the [try], lines 134-206. *)
Definition match_resume_body (R : Readers) (P : Parsers) (S : Service)
                             (resume : UploadFile)
                             (job_description experience_level : pystr)
  : outcome pyvalue :=
  resume_text <~ lift (extract_text_from_file R resume) ;;
  let resume_string := convert_to_single_string resume_text in
  response_json <~
    lift (post_chat_completions S
            (payload S resume_string job_description experience_level)) ;;
  match_result <~ first_choice_content response_json ;;
  result_json <~ clean_json_value P match_result ;;
  _ <~ lift (render_json S result_json) ;;
  Returned result_json.

(** The two handlers, lines 208-211. *)
Definition match_resume_handlers (o : outcome pyvalue) : result JSONResponse :=
  match o with
  | Returned result_json =>
      Ok {| status_code := 200; body := result_json |}
  | Thrown (Exn (HTTPException sc d)) =>
      Ok {| status_code := sc; body := detail_body d |}
  | Thrown (Exn (PyExc cls msg)) =>
      if is_Exception (PyExc cls msg)
      then Ok {| status_code := 500; body := detail_body msg |}
      else Raise (PyExc cls msg)
  | Thrown (IndexError msg) | Thrown (KeyError msg) =>
      Ok {| status_code := 500; body := detail_body msg |}
  end.

Definition match_resume_request (R : Readers) (P : Parsers) (S : Service)
                                (resume : UploadFile)
                                (job_description experience_level : pystr)
  : result JSONResponse :=
  match_resume_handlers
    (match_resume_body R P S resume job_description experience_level).

Module ServiceSamples.

(** A service that answers with the given JSON value and renders
    everything. *)
Definition answering (response_json : pyvalue) : Service :=
  {| system_content := py "You are a professional resume analysis AI.";
     post_chat_completions := fun _ => Ok response_json;
     render_json := fun _ => Ok tt |}.

(** A completion whose first choice carries [text]. *)
Definition completion (text : pystr) : pyvalue :=
  PyDict
    [ (PyStr (py "choices"),
       PyList [ PyDict [ (PyStr (py "message"),
                          PyDict [ (PyStr (py "content"), PyStr text) ]) ] ]) ].

End ServiceSamples.

(* ================================================================= *)
(** * Characters *)

Ltac by_cases_on_char c :=
  destruct c as [[|] [|] [|] [|] [|] [|] [|] [|]]; vm_compute;
  solve [ reflexivity | discriminate | intros; discriminate
        | intros; congruence ].

Lemma lower_char_is_lower (c : ascii) : is_upper (lower_char c) = false.
Proof. by_cases_on_char c. Qed.

Lemma lower_char_fixed (c : ascii) :
  is_upper c = false -> lower_char c = c.
Proof. unfold lower_char. now intros ->. Qed.

Lemma is_AZ_is_upper (c : ascii) : is_AZ c = true -> is_upper c = true.
Proof. unfold is_upper. now intros ->. Qed.

Lemma not_upper_not_AZ (c : ascii) : is_upper c = false -> is_AZ c = false.
Proof.
  intros H. destruct (is_AZ c) eqn:E; [|reflexivity].
  apply is_AZ_is_upper in E. congruence.
Qed.

Lemma lower_AZ_not_underscore (c : ascii) :
  is_AZ c = true -> lower_char c <> USCORE.
Proof. by_cases_on_char c. Qed.

Lemma snake_char_not_upper (c : ascii) :
  (let n := ord c in
   ((97 <=? n) && (n <=? 122)) || ((48 <=? n) && (n <=? 57)) || (n =? 95))
  = true ->
  is_upper c = false.
Proof. by_cases_on_char c. Qed.

Lemma eqb_NL_space (c : ascii) : Ascii.eqb c NL = true -> isspace c = true.
Proof. intros H. apply Ascii.eqb_eq in H. now subst. Qed.

(* ================================================================= *)
(** * The key rule *)

Lemma sub_boundaries_inner (t : pystr) :
  lower (sub_boundaries false t)
  = flat_map (fun x => if is_AZ x then [USCORE; lower_char x]
                       else [lower_char x]) t.
Proof.
  induction t as [|c t IH]; [reflexivity|].
  simpl. destruct (is_AZ c); simpl; now rewrite <- IH.
Qed.

Lemma snake_key_rule (k : pystr) : snake_key k = ascii_key_rule k.
Proof.
  destruct k as [|c t]; [reflexivity|].
  unfold snake_key. simpl. f_equal. apply sub_boundaries_inner.
Qed.

Lemma ascii_key_rule_key_rule (k : pystr) :
  upper_in_AZ k = true -> ascii_key_rule k = key_rule k.
Proof.
  destruct k as [|c t]; [reflexivity|].
  simpl. intros H. apply andb_true_iff in H as [_ H]. f_equal.
  induction t as [|x t IH]; [reflexivity|].
  simpl in H. apply andb_true_iff in H as [Hx Ht].
  simpl. rewrite (IH Ht). f_equal.
  destruct (is_upper x) eqn:Hu; simpl in Hx.
  - now rewrite Hx.
  - now rewrite (not_upper_not_AZ _ Hu).
Qed.

Lemma lower_upper_not_underscore (c : ascii) :
  is_upper c = true -> lower_char c <> USCORE.
Proof. by_cases_on_char c. Qed.

Lemma sub_boundaries_no_upper (b : bool) (k : pystr) :
  no_upper k = true -> sub_boundaries b k = k.
Proof.
  revert b. induction k as [|c t IH]; intros b H; [reflexivity|].
  simpl in H. apply andb_true_iff in H as [Hc Ht].
  apply negb_true_iff in Hc. simpl.
  rewrite (not_upper_not_AZ _ Hc), andb_false_r. now rewrite IH.
Qed.

Lemma lower_no_upper (k : pystr) : no_upper k = true -> lower k = k.
Proof.
  induction k as [|c t IH]; intros H; [reflexivity|].
  simpl in H. apply andb_true_iff in H as [Hc Ht].
  apply negb_true_iff in Hc. simpl.
  now rewrite (lower_char_fixed _ Hc), IH.
Qed.

Lemma lower_fixed_no_upper (k : pystr) : lower k = k -> no_upper k = true.
Proof.
  induction k as [|c t IH]; intros H; [reflexivity|].
  simpl in H. injection H as Hc Ht. simpl. rewrite (IH Ht), andb_true_r.
  destruct (is_upper c) eqn:Hu; [|reflexivity].
  pose proof (lower_char_is_lower c) as Hl. rewrite Hc, Hu in Hl.
  discriminate.
Qed.

Lemma no_upper_fixed (k : pystr) : no_upper k = true -> snake_key k = k.
Proof.
  intros H. unfold snake_key.
  rewrite (sub_boundaries_no_upper _ _ H). now apply lower_no_upper.
Qed.

Lemma snake_key_fixed (k : pystr) : lower k = k -> snake_key k = k.
Proof. intros H. now apply no_upper_fixed, lower_fixed_no_upper. Qed.

Lemma lower_fixed_no_AZ (k : pystr) : lower k = k -> no_AZ k = true.
Proof.
  intros H. apply lower_fixed_no_upper in H.
  induction k as [|c t IH]; [reflexivity|].
  simpl in H. apply andb_true_iff in H as [Hc Ht].
  apply negb_true_iff in Hc. simpl.
  now rewrite (not_upper_not_AZ _ Hc), IH.
Qed.

Lemma no_upper_lower (k : pystr) : no_upper (lower k) = true.
Proof.
  induction k as [|c t IH]; [reflexivity|].
  simpl. now rewrite lower_char_is_lower, IH.
Qed.

Lemma no_upper_snake_key (k : pystr) : no_upper (snake_key k) = true.
Proof. apply no_upper_lower. Qed.

Lemma lower_snake_key (k : pystr) : lower (snake_key k) = snake_key k.
Proof. apply lower_no_upper, no_upper_snake_key. Qed.

Lemma snake_key_idempotent (k : pystr) :
  snake_key (snake_key k) = snake_key k.
Proof. apply snake_key_fixed, lower_snake_key. Qed.

Lemma is_snake_case_no_upper (k : pystr) :
  is_snake_case k = true -> no_upper k = true.
Proof.
  induction k as [|c t IH]; intros H; [reflexivity|].
  simpl in H. apply andb_true_iff in H as [Hc Ht].
  simpl. rewrite (snake_char_not_upper _ Hc). now apply IH.
Qed.

(** C5, as the code has it. The key transformation inserts an
    underscore before every letter of [A-Z] that is not the first
    character, then lower-cases the key; an upper-case letter outside
    [A-Z] is lower-cased without an underscore. On a key whose
    upper-case letters are all in [A-Z] this is the rule of the
    specification. [overallScore] becomes [overall_score]; a key in
    snake_case, and more generally a key that is its own lower-casing,
    is unchanged; a key that begins with an upper-case letter begins,
    once transformed, with that letter in lower case and not with an
    underscore. *)
Theorem key_transformation_rule :
  (forall k, snake_key k = ascii_key_rule k) /\
  (forall k, upper_in_AZ k = true -> snake_key k = key_rule k) /\
  snake_key (py "overallScore") = py "overall_score" /\
  (forall k, is_snake_case k = true -> snake_key k = k) /\
  (forall k, lower k = k -> snake_key k = k) /\
  (forall c t, is_upper c = true ->
     exists t', snake_key (c :: t) = lower_char c :: t'
                /\ lower_char c <> USCORE).
Proof.
  split; [exact snake_key_rule|].
  split; [intros k H; rewrite snake_key_rule;
          now apply ascii_key_rule_key_rule|].
  split; [reflexivity|].
  split; [intros k H; now apply no_upper_fixed, is_snake_case_no_upper|].
  split; [exact snake_key_fixed|].
  intros c t H. rewrite snake_key_rule. simpl.
  eexists. split; [reflexivity|]. now apply lower_upper_not_underscore.
Qed.

Lemma key_transformation_rule_witness :
  snake_key (py "overallScore") = key_rule (py "overallScore")
  /\ snake_key (py "overall_score") = py "overall_score"
  /\ snake_key (py "resume") = py "resume"
  /\ exists t', snake_key (chr 201 :: py "cole") = lower_char (chr 201) :: t'
                /\ lower_char (chr 201) <> USCORE.
Proof.
  destruct key_transformation_rule as (_ & Hrule & _ & Hsnake & Hlow & Hfirst).
  split; [apply Hrule; reflexivity|].
  split; [apply Hsnake; reflexivity|].
  split; [apply Hlow; reflexivity|].
  apply (Hfirst (chr 201) (py "cole")). reflexivity.
Defined.

(** C5, as stated, fails: in the key made of [a] and the upper-case
    letter U+00C9, the rule of the specification puts an underscore
    before the second letter, and the code does not. *)
Lemma key_rule_outside_AZ :
  is_upper (chr 201) = true
  /\ snake_key [chr 97; chr 201] = [chr 97; chr 233]
  /\ key_rule [chr 97; chr 201] = [chr 97; USCORE; chr 233]
  /\ snake_key [chr 97; chr 201] <> key_rule [chr 97; chr 201].
Proof. repeat split. vm_compute. discriminate. Qed.

(* ================================================================= *)
(** * Normalized text *)

Section Words.

Local Abbreviation nonspace := (Forall (fun c => isspace c = false)).

Lemma split_from_blank (g x : pystr) :
  blank g -> split_from [] (g ++ x) = split_from [] x.
Proof.
  induction 1 as [|c g Hc _ IH]; [reflexivity|].
  simpl. now rewrite Hc.
Qed.

Lemma split_from_word (w x acc : pystr) :
  nonspace w -> split_from acc (w ++ x) = split_from (acc ++ w) x.
Proof.
  intros Hw. revert acc.
  induction Hw as [|c w Hc _ IH]; intros acc.
  - now rewrite app_nil_r.
  - simpl. rewrite Hc, IH, <- app_assoc. reflexivity.
Qed.

Lemma split_from_boundary (acc rest : pystr) :
  acc <> [] -> word_boundary rest ->
  split_from acc rest = acc :: split_from [] rest.
Proof.
  intros Hacc Hb. destruct rest as [|c r]; simpl.
  - destruct acc; [contradiction|reflexivity].
  - simpl in Hb. rewrite Hb. destruct acc; [contradiction|reflexivity].
Qed.

Lemma words_of_split (s : pystr) (ws : list pystr) :
  words_of s ws -> split s = ws.
Proof.
  unfold split. induction 1 as [g Hg | g w rest ws Hg [Hne Hw] Hb _ IH].
  - rewrite <- (app_nil_r g). now rewrite split_from_blank.
  - rewrite split_from_blank by assumption.
    rewrite split_from_word by assumption. simpl.
    rewrite split_from_boundary by assumption. now rewrite IH.
Qed.

Lemma words_of_space_cons (c : ascii) (s : pystr) (ws : list pystr) :
  isspace c = true -> words_of s ws -> words_of (c :: s) ws.
Proof.
  intros Hc H. destruct H as [g Hg | g w rest ws Hg Hw Hb H].
  - constructor. now constructor.
  - change (c :: g ++ w ++ rest) with ((c :: g) ++ w ++ rest).
    constructor; trivial. now constructor.
Qed.

Lemma split_from_words_of (s acc : pystr) :
  nonspace acc -> words_of (acc ++ s) (split_from acc s).
Proof.
  revert acc. induction s as [|c t IH]; intros acc Hacc; simpl.
  - rewrite app_nil_r. destruct acc as [|a acc'].
    + constructor. constructor.
    + assert (H : words_of ([] ++ (a :: acc') ++ []) [a :: acc']).
      { apply words_more; try constructor; try assumption.
        - discriminate.
        - constructor. }
      simpl in H. rewrite app_nil_r in H. exact H.
  - destruct (isspace c) eqn:Hc.
    + assert (Ht : words_of (c :: t) (split_from [] t)).
      { apply words_of_space_cons; [assumption|].
        apply (IH []). constructor. }
      destruct acc as [|a acc']; [exact Ht|].
      apply (words_more [] (a :: acc') (c :: t)); trivial.
      * constructor.
      * split; [discriminate|assumption].
    + replace (acc ++ c :: t) with ((acc ++ [c]) ++ t)
        by now rewrite <- app_assoc.
      apply IH. apply Forall_app. split; [assumption|].
      now constructor.
Qed.

Lemma split_words_of (s : pystr) : words_of s (split s).
Proof. apply (split_from_words_of s []). constructor. Qed.

Lemma words_of_words (s : pystr) (ws : list pystr) :
  words_of s ws -> Forall word ws.
Proof. induction 1; now constructor. Qed.

Lemma leading_space_app (a b : pystr) :
  a <> [] -> leading_space (a ++ b) = leading_space a.
Proof. destruct a; [contradiction|reflexivity]. Qed.

Lemma word_trimmed (w : pystr) : word w -> trimmed w.
Proof.
  intros [Hne Hw]. split; [assumption|]. split.
  - destruct w; [contradiction|]. now inversion Hw.
  - unfold trailing_space. apply Forall_rev in Hw.
    destruct (rev w) eqn:E; [reflexivity|]. now inversion Hw.
Qed.

Lemma no_adjacent_space_step (c1 c2 : ascii) (t : pystr) :
  no_adjacent_space (c1 :: c2 :: t)
  = negb (isspace c1 && isspace c2) && no_adjacent_space (c2 :: t).
Proof. reflexivity. Qed.

Lemma no_adjacent_space_word (w x : pystr) :
  nonspace w -> no_adjacent_space x = true ->
  no_adjacent_space (w ++ x) = true.
Proof.
  induction 1 as [|c w Hc _ IH]; intros Hx; [assumption|].
  specialize (IH Hx). simpl app.
  destruct (w ++ x); [reflexivity|].
  now rewrite no_adjacent_space_step, Hc, IH.
Qed.

Lemma no_adjacent_space_sep (y : pystr) :
  leading_space y = false -> no_adjacent_space y = true ->
  no_adjacent_space (SP :: y) = true.
Proof.
  intros Hl Hy. destruct y as [|c y']; [reflexivity|].
  simpl in Hl. rewrite no_adjacent_space_step, Hl, andb_false_r.
  exact Hy.
Qed.

Lemma join_words (w : pystr) (ws : list pystr) :
  word w -> Forall word ws ->
  trimmed (join [SP] (w :: ws))
  /\ no_adjacent_space (join [SP] (w :: ws)) = true.
Proof.
  intros Hw Hws. revert w Hw.
  induction Hws as [|w' ws Hw' _ IH]; intros w Hw.
  - simpl. split; [now apply word_trimmed|].
    rewrite <- (app_nil_r w). apply no_adjacent_space_word;
      [apply Hw|reflexivity].
  - destruct (IH w' Hw') as [(Hne & Hlead & Htrail) Hadj].
    destruct (word_trimmed w Hw) as (Hwne & Hwlead & _).
    change (join [SP] (w :: w' :: ws))
      with (w ++ SP :: join [SP] (w' :: ws)).
    split; [split; [|split]|].
    + destruct w; [contradiction|discriminate].
    + now rewrite leading_space_app.
    + unfold trailing_space in *. rewrite rev_app_distr. simpl.
      rewrite <- app_assoc. rewrite leading_space_app; [assumption|].
      intros E. apply Hne. apply (f_equal (@rev ascii)) in E.
      now rewrite rev_involutive in E.
    + apply no_adjacent_space_word; [apply Hw|].
      now apply no_adjacent_space_sep.
Qed.

Lemma join_words_normalized (ws : list pystr) :
  Forall word ws ->
  no_adjacent_space (join [SP] ws) = true
  /\ leading_space (join [SP] ws) = false
  /\ trailing_space (join [SP] ws) = false.
Proof.
  intros H. destruct H as [|w ws Hw Hws]; [now repeat split|].
  destruct (join_words w ws Hw Hws) as [(_ & Hl & Ht) Ha]. auto.
Qed.

End Words.

(** C9. The output of [convert_to_single_string] has no two consecutive
    white-space characters and no white space at either end, and it is
    the white-space-separated words of the input joined by single spaces:
    [split] yields the words of the input, and whatever list is the words
    of the input, the output is its join. *)
Theorem convert_to_single_string_normalized (text : pystr) :
  no_adjacent_space (convert_to_single_string text) = true
  /\ leading_space (convert_to_single_string text) = false
  /\ trailing_space (convert_to_single_string text) = false
  /\ words_of text (split text)
  /\ (forall ws, words_of text ws ->
        convert_to_single_string text = join [SP] ws).
Proof.
  pose proof (split_words_of text) as Hw.
  destruct (join_words_normalized _ (words_of_words _ _ Hw)) as (Ha & Hl & Ht).
  unfold convert_to_single_string. repeat split; trivial.
  intros ws H. now rewrite (words_of_split _ _ H).
Qed.

Lemma convert_to_single_string_normalized_witness :
  words_of (py " a  b") [py "a"; py "b"]
  /\ convert_to_single_string (py " a  b") = py "a b".
Proof.
  assert (H : words_of (py " a  b") [py "a"; py "b"]).
  { apply (words_more (py " ") (py "a") (py "  b") [py "b"]).
    - repeat constructor.
    - split; [discriminate|repeat constructor].
    - reflexivity.
    - apply (words_more (py "  ") (py "b") [] []).
      + repeat constructor.
      + split; [discriminate|repeat constructor].
      + exact I.
      + constructor. constructor. }
  split; [exact H|].
  exact (proj2 (proj2 (proj2 (proj2
           (convert_to_single_string_normalized (py " a  b"))))) _ H).
Defined.

(* ================================================================= *)
(** * De-fencing *)

Lemma pystr_eqb_eq (a b : pystr) : pystr_eqb a b = true <-> a = b.
Proof.
  unfold pystr_eqb. destruct (list_eq_dec ascii_dec a b); split;
    intros; congruence.
Qed.

Lemma pystr_eqb_refl (a : pystr) : pystr_eqb a a = true.
Proof. now apply pystr_eqb_eq. Qed.

Lemma startswith_cons (a b : ascii) (p s : pystr) :
  startswith (a :: p) (b :: s) = Ascii.eqb a b && startswith p s.
Proof. reflexivity. Qed.

Lemma startswith_prefix (p s : pystr) :
  startswith p s = true -> exists r, s = p ++ r.
Proof.
  revert s. induction p as [|a p IH]; intros s H.
  - now exists s.
  - destruct s as [|b s]; [discriminate|]. simpl in H.
    apply andb_true_iff in H as [Hab Hs].
    apply Ascii.eqb_eq in Hab. subst b.
    destruct (IH _ Hs) as [r ->]. now exists r.
Qed.

Lemma endswith_suffix (p s : pystr) :
  endswith p s = true -> exists r, s = r ++ p.
Proof.
  unfold endswith. intros H.
  destruct (startswith_prefix _ _ H) as [r Hr].
  exists (rev r). apply (f_equal (@rev ascii)) in Hr.
  rewrite rev_involutive, rev_app_distr, rev_involutive in Hr. exact Hr.
Qed.

Lemma after_newline_some (s rest : pystr) :
  after_newline s = Some rest ->
  exists info, s = info ++ NL :: rest /\ ~ In NL info.
Proof.
  revert rest. induction s as [|c t IH]; intros rest H; [discriminate|].
  simpl in H. destruct (Ascii.eqb c NL) eqn:E.
  - apply Ascii.eqb_eq in E. injection H as <-. subst c.
    exists []. split; [reflexivity|]. intros [].
  - destruct (IH _ H) as (info & -> & Hinfo).
    exists (c :: info). split; [reflexivity|].
    intros [Hc | Hin]; [|contradiction].
    subst c. now rewrite Ascii.eqb_refl in E.
Qed.

Lemma after_newline_found (s : pystr) :
  In NL s -> exists rest, after_newline s = Some rest.
Proof.
  induction s as [|c t IH]; intros H; [contradiction|].
  simpl. destruct (Ascii.eqb c NL) eqn:E; [now eexists|].
  destruct H as [Hc | H]; [|now apply IH].
  subst c. now rewrite Ascii.eqb_refl in E.
Qed.

(** After the first line feed of a string that ends with the fence, the
    fence is still whole. *)
Lemma fence_after_newline (pre info rest : pystr) :
  info ++ NL :: rest = pre ++ FENCE ->
  exists interior, rest = interior ++ FENCE.
Proof.
  intros H. apply (f_equal (@rev ascii)) in H.
  rewrite !rev_app_distr in H. simpl in H.
  rewrite <- (rev_involutive rest).
  destruct (rev rest) as [|a [|b [|c r]]]; simpl in H;
    try (injection H; intros; discriminate).
  injection H as -> -> -> _.
  exists (rev r). simpl. now rewrite <- !app_assoc.
Qed.

Lemma at_end_fence_interior (c : ascii) (interior : pystr) :
  at_end_fence (c :: interior ++ FENCE) = false.
Proof.
  unfold at_end_fence. apply orb_false_iff. split.
  - destruct (pystr_eqb _ _) eqn:E; [|reflexivity].
    apply pystr_eqb_eq in E. apply (f_equal (@List.length ascii)) in E.
    simpl in E. rewrite length_app in E. simpl in E. lia.
  - destruct (pystr_eqb _ _) eqn:E; [|reflexivity].
    apply pystr_eqb_eq in E.
    destruct interior as [|x [|y l]]; try discriminate.
    apply (f_equal (@List.length ascii)) in E.
    simpl in E. rewrite length_app in E. simpl in E. lia.
Qed.

Lemma sub_end_fence_interior (interior : pystr) :
  sub_end_fence (interior ++ FENCE) = interior.
Proof.
  induction interior as [|c l IH]; [reflexivity|].
  change ((c :: l) ++ FENCE) with (c :: l ++ FENCE).
  cbn [sub_end_fence]. rewrite at_end_fence_interior. now rewrite IH.
Qed.

Lemma fenced_shape (s : pystr) :
  fenced s = true ->
  exists r pre, strip s = FENCE ++ r /\ strip s = pre ++ FENCE.
Proof.
  unfold fenced. intros H. apply andb_true_iff in H as [H1 H2].
  destruct (startswith_prefix _ _ H1) as [r Hr].
  destruct (endswith_suffix _ _ H2) as [pre Hpre]. eauto.
Qed.

Lemma working_string_unfenced (s : pystr) :
  fenced s = false -> working_string s = s.
Proof. unfold working_string. now intros ->. Qed.

Lemma working_string_fenced_lines (s : pystr) :
  fenced s = true -> In NL (strip s) ->
  exists info interior,
    ~ In NL info
    /\ strip s = FENCE ++ info ++ NL :: interior ++ FENCE
    /\ working_string s = interior.
Proof.
  intros Hf Hnl. unfold working_string. rewrite Hf.
  destruct (fenced_shape _ Hf) as (r & pre & Hr & Hpre).
  unfold re_sub_fence. rewrite Hr in *.
  assert (Hin : In NL r).
  { apply in_app_or in Hnl as [Hnl | Hnl]; [|assumption].
    simpl in Hnl. repeat destruct Hnl as [Hnl | Hnl]; try discriminate.
    contradiction. }
  destruct (after_newline_found _ Hin) as [rest Hrest].
  change (startswith FENCE (FENCE ++ r)) with true. cbn iota.
  change (skipn 3 (FENCE ++ r)) with r. rewrite Hrest.
  destruct (after_newline_some _ _ Hrest) as (info & -> & Hinfo).
  change (FENCE ++ info ++ NL :: rest)
    with ((FENCE ++ info) ++ NL :: rest) in Hpre.
  rewrite <- app_assoc in Hpre.
  replace (FENCE ++ info ++ NL :: rest)
    with ((FENCE ++ info) ++ NL :: rest) in Hpre
    by now rewrite <- app_assoc.
  destruct (fence_after_newline _ _ _ Hpre) as [interior ->].
  exists info, interior. repeat split; trivial.
  apply sub_end_fence_interior.
Qed.

Lemma working_string_fenced_single (s : pystr) :
  fenced s = true -> ~ In NL (strip s) ->
  exists pre, strip s = pre ++ FENCE /\ working_string s = pre.
Proof.
  intros Hf Hnl. unfold working_string. rewrite Hf.
  destruct (fenced_shape _ Hf) as (r & pre & Hr & Hpre).
  exists pre. split; [assumption|].
  unfold re_sub_fence.
  assert (Hnone : after_newline (skipn 3 (strip s)) = None).
  { destruct (after_newline _) as [rest|] eqn:E; [|reflexivity].
    exfalso. apply Hnl. rewrite Hr. change (skipn 3 (strip s))
      with (skipn 3 (strip s)) in E. rewrite Hr in E.
    change (skipn 3 (FENCE ++ r)) with r in E.
    destruct (after_newline_some _ _ E) as (info & -> & _).
    apply in_or_app. right. apply in_or_app. right. now left. }
  rewrite Hnone. rewrite Hpre.
  destruct (startswith FENCE (pre ++ FENCE)); apply sub_end_fence_interior.
Qed.

Lemma lstrip_length (s : pystr) : List.length (lstrip s) <= List.length s.
Proof.
  induction s as [|c t IH]; [reflexivity|].
  simpl. destruct (isspace c); simpl; lia.
Qed.

Lemma strip_length (s : pystr) : List.length (strip s) <= List.length s.
Proof.
  unfold strip, rstrip. rewrite length_rev.
  etransitivity; [apply lstrip_length|]. rewrite length_rev.
  apply lstrip_length.
Qed.

Lemma working_string_fenced_shorter (s : pystr) :
  fenced s = true -> List.length (working_string s) + 3 <= List.length s.
Proof.
  intros Hf. pose proof (strip_length s) as Hs.
  destruct (in_dec ascii_dec NL (strip s)) as [Hnl | Hnl].
  - destruct (working_string_fenced_lines _ Hf Hnl)
      as (info & interior & _ & E & ->).
    rewrite E in Hs. rewrite !length_app in Hs. simpl in Hs.
    rewrite length_app in Hs. simpl in Hs. lia.
  - destruct (working_string_fenced_single _ Hf Hnl) as (pre & E & ->).
    rewrite E, length_app in Hs. simpl in Hs. lia.
Qed.

Lemma working_string_fenced_differs (s : pystr) :
  fenced s = true -> working_string s <> s.
Proof.
  intros Hf E. pose proof (working_string_fenced_shorter _ Hf) as H.
  rewrite E in H. lia.
Qed.

(** C8, as the code has it. When the stripped input does not both start
    and end with three backticks, the working string is the input as it
    was passed, white space at its ends included. When it does and holds
    a line feed, the stripped input is the fence, the rest of the first
    line, a line feed, an interior and the closing fence, and the working
    string is that interior. *)
Theorem de_fencing (s : pystr) :
  (fenced s = false -> working_string s = s)
  /\ (fenced s = true -> In NL (strip s) ->
      exists info interior,
        ~ In NL info
        /\ strip s = FENCE ++ info ++ NL :: interior ++ FENCE
        /\ working_string s = interior).
Proof.
  split;
    [apply working_string_unfenced | apply working_string_fenced_lines].
Qed.

Lemma de_fencing_witness :
  working_string (py " {}") = py " {}"
  /\ exists info interior,
       ~ In NL info
       /\ strip Samples.fenced_text = FENCE ++ info ++ NL :: interior ++ FENCE
       /\ working_string Samples.fenced_text = interior.
Proof.
  split.
  - apply (proj1 (de_fencing (py " {}"))). reflexivity.
  - apply (proj2 (de_fencing Samples.fenced_text)).
    + reflexivity.
    + vm_compute. tauto.
Defined.

(** C8, as stated, fails: without a fence the working string is not the
    trimmed input when the input has white space at an end. *)
Lemma working_string_not_trimmed :
  fenced (py " {}") = false
  /\ working_string (py " {}") <> strip (py " {}").
Proof. split; [reflexivity|]. vm_compute. discriminate. Qed.

(** A fence on a single line loses its closing marker only. *)
Example single_line_fence :
  fenced (py "```{}```") = true
  /\ working_string (py "```{}```") = py "```{}".
Proof. split; reflexivity. Qed.

(* ================================================================= *)
(** * The walk over values *)

(** Induction along the walk of [convert_to_snake_case]. *)
Lemma pyvalue_walk_ind (P : pyvalue -> Prop) :
  (forall v, walked v = false -> P v) ->
  (forall items, Forall P items -> P (PyList items)) ->
  (forall items, Forall (fun kv => P (snd kv)) items -> P (PyDict items)) ->
  forall v, P v.
Proof.
  intros Hleaf Hlist Hdict. fix F 1.
  intros [ | b | z | bits | s | b | items | items | items | items];
    try (apply Hleaf; reflexivity).
  - apply Hlist. induction items as [|x xs IH]; constructor;
      [apply F | exact IH].
  - apply Hdict. induction items as [|[k x] xs IH]; constructor;
      [apply F | exact IH].
Qed.

Lemma key_is_true (k0 : pyvalue) (k : pystr) :
  key_is k0 k = true <-> k0 = PyStr k.
Proof.
  destruct k0; simpl; try (split; [discriminate|intros; discriminate]).
  rewrite pystr_eqb_eq. split; congruence.
Qed.

Lemma key_is_false (k0 : pyvalue) (k : pystr) :
  key_is k0 k = false -> k0 <> PyStr k.
Proof.
  intros H E. apply key_is_true in E. congruence.
Qed.

(** *** Dict assignment *)

Lemma dict_set_in (d : list (pyvalue * pyvalue)) (k : pystr) (v k1 v1 : pyvalue) :
  In (k1, v1) (dict_set d k v) ->
  In (k1, v1) d \/ (k1 = PyStr k /\ v1 = v).
Proof.
  induction d as [|[k0 v0] r IH]; simpl.
  - intros [E | []]. right. now inversion E.
  - destruct (key_is k0 k) eqn:Hk; simpl.
    + intros [E | H]; [|now left; right].
      inversion E; subst. right. split; [now apply key_is_true|reflexivity].
    + intros [E | H]; [now left; left|].
      destruct (IH H) as [? | ?]; [now left; right | now right].
Qed.

Lemma dict_set_keys_in (d : list (pyvalue * pyvalue)) (k : pystr) (v x : pyvalue) :
  In x (map fst (dict_set d k v)) -> In x (map fst d) \/ x = PyStr k.
Proof.
  intros H. apply in_map_iff in H as [[k1 v1] [<- H]].
  apply dict_set_in in H as [H | [-> _]]; [left | now right].
  now apply (in_map fst) in H.
Qed.

Lemma dict_set_keys_distinct (d : list (pyvalue * pyvalue)) (k : pystr) (v : pyvalue) :
  NoDup (map fst d) -> NoDup (map fst (dict_set d k v)).
Proof.
  induction d as [|[k0 v0] r IH]; simpl; intros H.
  - repeat constructor. intros [].
  - inversion H as [|? ? Hnotin Hr]; subst.
    destruct (key_is k0 k) eqn:Hk; simpl; [now constructor|].
    constructor; [|now apply IH].
    intros Hin. apply dict_set_keys_in in Hin as [Hin | ->];
      [contradiction|].
    now apply key_is_false in Hk.
Qed.

Lemma dict_set_fresh (d : list (pyvalue * pyvalue)) (k : pystr) (v : pyvalue) :
  ~ In (PyStr k) (map fst d) -> dict_set d k v = d ++ [(PyStr k, v)].
Proof.
  induction d as [|[k0 v0] r IH]; simpl; intros H; [reflexivity|].
  destruct (key_is k0 k) eqn:Hk.
  - apply key_is_true in Hk. subst. exfalso. apply H. now left.
  - rewrite IH; [reflexivity|]. intros Hin. apply H. now right.
Qed.

Lemma dict_get_set (d : list (pyvalue * pyvalue)) (k k' : pystr) (v : pyvalue) :
  dict_get (dict_set d k v) k'
  = if pystr_eqb k k' then Some v else dict_get d k'.
Proof.
  induction d as [|[k0 v0] r IH]; simpl.
  - destruct (pystr_eqb k k'); reflexivity.
  - destruct (key_is k0 k) eqn:Hk; simpl.
    + apply key_is_true in Hk. subst k0. simpl.
      destruct (pystr_eqb k k'); reflexivity.
    + destruct (key_is k0 k') eqn:Hk'; [|exact IH].
      destruct (pystr_eqb k k') eqn:E; [|reflexivity].
      apply pystr_eqb_eq in E. subst k'. congruence.
Qed.

(** *** The two comprehensions, for any walk *)

Section Comprehensions.

Variable I : Interpreter.
Variable conv : pyvalue -> result pyvalue.

Lemma dict_comprehension_str (ks : pystr) (v : pyvalue)
      (rest acc : list (pyvalue * pyvalue)) :
  dict_comprehension I conv ((PyStr ks, v) :: rest) acc
  = match conv v with
    | Ok cv => dict_comprehension I conv rest (dict_set acc (snake_key ks) cv)
    | Raise e => Raise e
    end.
Proof. reflexivity. Qed.

Lemma dict_comprehension_other (k v : pyvalue)
      (rest acc : list (pyvalue * pyvalue)) :
  (forall ks, k <> PyStr ks) ->
  dict_comprehension I conv ((k, v) :: rest) acc
  = Raise (re_sub_type_error I k).
Proof. intros H. destruct k; try reflexivity. now destruct (H s). Qed.

Lemma dict_comprehension_ok (its acc : list (pyvalue * pyvalue)) (y : pyvalue) :
  dict_comprehension I conv its acc = Ok y ->
  exists out,
    y = PyDict out
    /\ (forall k1 v1, In (k1, v1) out ->
          In (k1, v1) acc
          \/ exists ks v, In (PyStr ks, v) its /\ k1 = PyStr (snake_key ks)
                          /\ conv v = Ok v1)
    /\ (NoDup (map fst acc) -> NoDup (map fst out)).
Proof.
  revert acc. induction its as [|[k v] rest IH]; intros acc H.
  - injection H as <-. exists acc. repeat split; auto.
  - destruct k; try discriminate.
    rewrite dict_comprehension_str in H.
    destruct (conv v) as [cv|e] eqn:Hv; [|discriminate].
    destruct (IH _ H) as (out & -> & Hin & Hnd).
    exists out. split; [reflexivity|]. split.
    + intros k1 v1 H1. destruct (Hin _ _ H1) as [Hacc | Hrest].
      * apply dict_set_in in Hacc as [Hacc | [-> ->]]; [now left|].
        right. exists s, v. repeat split; [now left | assumption].
      * destruct Hrest as (ks & v' & Hi & E1 & E2).
        right. exists ks, v'. repeat split; [now right | | ]; assumption.
    + intros Hacc. apply Hnd. now apply dict_set_keys_distinct.
Qed.

Lemma dict_comprehension_total (its acc : list (pyvalue * pyvalue)) :
  Forall (fun kv => exists k, fst kv = PyStr k) its ->
  Forall (fun kv => exists y, conv (snd kv) = Ok y) its ->
  exists out, dict_comprehension I conv its acc = Ok (PyDict out).
Proof.
  intros Hk. revert acc.
  induction Hk as [|[k v] rest [ks Hks] _ IH]; intros acc Hv.
  - now exists acc.
  - simpl in Hks. subst k. inversion Hv as [|? ? [y Hy] Hrest]; subst.
    simpl in Hy. rewrite dict_comprehension_str, Hy. now apply IH.
Qed.

Lemma dict_comprehension_raise (its acc : list (pyvalue * pyvalue)) (e : exn) :
  dict_comprehension I conv its acc = Raise e ->
  (exists k, (forall s, k <> PyStr s) /\ e = re_sub_type_error I k)
  \/ exists kv, In kv its /\ conv (snd kv) = Raise e.
Proof.
  revert acc. induction its as [|[k v] rest IH]; intros acc H;
    [discriminate|].
  destruct k;
    try (injection H as <-; left; eexists; split; cycle 1;
         [reflexivity | intros s0; discriminate]).
  rewrite dict_comprehension_str in H.
  destruct (conv v) as [cv|e'] eqn:Hv.
  - destruct (IH _ H) as [? | (kv & Hin & Hkv)]; [now left|].
    right. exists kv. split; [now right | assumption].
  - injection H as ->. right. exists (PyStr s, v). split; [now left|].
    exact Hv.
Qed.

Lemma dict_comprehension_fixed (its acc : list (pyvalue * pyvalue)) :
  Forall (fun kv => exists k, fst kv = PyStr k /\ lower k = k) its ->
  Forall (fun kv => conv (snd kv) = Ok (snd kv)) its ->
  NoDup (map fst (acc ++ its)) ->
  dict_comprehension I conv its acc = Ok (PyDict (acc ++ its)).
Proof.
  intros Hk. revert acc.
  induction Hk as [|[k v] rest (ks & Hks & Hlow) _ IH]; intros acc Hv Hnd.
  - now rewrite app_nil_r.
  - simpl in Hks. subst k. inversion Hv as [|? ? Hy Hrest]; subst.
    simpl in Hy. rewrite dict_comprehension_str, Hy.
    rewrite (snake_key_fixed _ Hlow).
    assert (Hfresh : ~ In (PyStr ks) (map fst acc)).
    { rewrite map_app in Hnd. simpl in Hnd.
      apply NoDup_remove_2 in Hnd. intros Hin. apply Hnd.
      apply in_or_app. now left. }
    rewrite (dict_set_fresh _ _ _ Hfresh).
    rewrite IH; trivial.
    + now rewrite <- app_assoc.
    + now rewrite <- app_assoc.
Qed.

Lemma dict_comprehension_get (its acc out : list (pyvalue * pyvalue)) (k' : pystr) :
  dict_comprehension I conv its acc = Ok (PyDict out) ->
  (forall k2 v2, In (PyStr k2, v2) its -> snake_key k2 <> k') ->
  dict_get out k' = dict_get acc k'.
Proof.
  revert acc. induction its as [|[k v] rest IH]; intros acc H Hno.
  - now injection H as <-.
  - destruct k; try discriminate.
    rewrite dict_comprehension_str in H.
    destruct (conv v) as [cv|e] eqn:Hv; [|discriminate].
    rewrite (IH _ H); [|intros k2 v2 Hin; apply (Hno k2 v2); now right].
    rewrite dict_get_set.
    destruct (pystr_eqb (snake_key s) k') eqn:E; [|reflexivity].
    apply pystr_eqb_eq in E. exfalso. apply (Hno s v); [now left|exact E].
Qed.

Lemma dict_comprehension_last (l1 l2 acc out : list (pyvalue * pyvalue))
      (k : pystr) (v : pyvalue) :
  dict_comprehension I conv (l1 ++ (PyStr k, v) :: l2) acc = Ok (PyDict out) ->
  (forall k2 v2, In (PyStr k2, v2) l2 -> snake_key k2 <> snake_key k) ->
  exists cv, conv v = Ok cv /\ dict_get out (snake_key k) = Some cv.
Proof.
  revert acc. induction l1 as [|[k1 v1] l1 IH]; intros acc H Hno.
  - simpl app in H. rewrite dict_comprehension_str in H.
    destruct (conv v) as [cv|e] eqn:Hv; [|discriminate].
    exists cv. split; [reflexivity|].
    rewrite (dict_comprehension_get _ _ _ _ H Hno), dict_get_set.
    now rewrite pystr_eqb_refl.
  - destruct k1; try discriminate.
    change ((((PyStr s, v1) :: l1) ++ (PyStr k, v) :: l2))
      with ((PyStr s, v1) :: (l1 ++ (PyStr k, v) :: l2)) in H.
    rewrite dict_comprehension_str in H.
    destruct (conv v1) as [cv1|e] eqn:Hv1; [|discriminate].
    now apply (IH _ H).
Qed.

Lemma list_comprehension_cons (item : pyvalue) (rest acc : list pyvalue) :
  list_comprehension conv (item :: rest) acc
  = match conv item with
    | Ok y => list_comprehension conv rest (acc ++ [y])
    | Raise e => Raise e
    end.
Proof. reflexivity. Qed.

Lemma list_comprehension_ok (its acc : list pyvalue) (y : pyvalue) :
  list_comprehension conv its acc = Ok y ->
  exists ys, y = PyList (acc ++ ys)
             /\ Forall2 (fun x x' => conv x = Ok x') its ys.
Proof.
  revert acc. induction its as [|x rest IH]; intros acc H.
  - injection H as <-. exists []. rewrite app_nil_r. now split.
  - rewrite list_comprehension_cons in H.
    destruct (conv x) as [x'|e] eqn:Hx; [|discriminate].
    destruct (IH _ H) as (ys & -> & Hys).
    exists (x' :: ys). rewrite <- app_assoc. split; [reflexivity|].
    now constructor.
Qed.

Lemma list_comprehension_total (its acc : list pyvalue) :
  Forall (fun x => exists y, conv x = Ok y) its ->
  exists ys, list_comprehension conv its acc = Ok (PyList ys).
Proof.
  intros H. revert acc. induction H as [|x rest [y Hy] _ IH]; intros acc.
  - now exists acc.
  - rewrite list_comprehension_cons, Hy. apply IH.
Qed.

Lemma list_comprehension_raise (its acc : list pyvalue) (e : exn) :
  list_comprehension conv its acc = Raise e ->
  exists x, In x its /\ conv x = Raise e.
Proof.
  revert acc. induction its as [|x rest IH]; intros acc H; [discriminate|].
  rewrite list_comprehension_cons in H.
  destruct (conv x) as [x'|e'] eqn:Hx.
  - destruct (IH _ H) as (x0 & Hin & Hx0). exists x0.
    split; [now right | assumption].
  - injection H as ->. exists x. split; [now left | assumption].
Qed.

Lemma list_comprehension_fixed (its acc : list pyvalue) :
  Forall (fun x => conv x = Ok x) its ->
  list_comprehension conv its acc = Ok (PyList (acc ++ its)).
Proof.
  intros H. revert acc. induction H as [|x rest Hx _ IH]; intros acc.
  - now rewrite app_nil_r.
  - rewrite list_comprehension_cons, Hx, IH. now rewrite <- app_assoc.
Qed.

End Comprehensions.

(** *** [convert_to_snake_case] *)

Section Walk.

Variable I : Interpreter.

Lemma convert_dict (depth : nat) (items : list (pyvalue * pyvalue)) :
  convert_to_snake_case I depth (PyDict items)
  = dict_comprehension I (nested_call I depth) items [].
Proof. reflexivity. Qed.

Lemma convert_list (depth : nat) (items : list pyvalue) :
  convert_to_snake_case I depth (PyList items)
  = list_comprehension (nested_call I depth) items [].
Proof. reflexivity. Qed.

Lemma convert_other (depth : nat) (v : pyvalue) :
  walked v = false -> convert_to_snake_case I depth v = Ok v.
Proof. destruct v; try reflexivity; discriminate. Qed.

Lemma nested_call_ok (depth : nat) (v y : pyvalue) :
  nested_call I depth v = Ok y ->
  exists room, depth = S room /\ convert_to_snake_case I room v = Ok y.
Proof. destruct depth as [|room]; [discriminate|]. intros H. now exists room. Qed.

Lemma nesting_dict (depth : nat) (items : list (pyvalue * pyvalue)) :
  nesting (PyDict items) <= depth
  <-> forall k v, In (k, v) items -> S (nesting v) <= depth.
Proof.
  change (nesting (PyDict items))
    with (fold_right (fun (kv : pyvalue * pyvalue) m =>
                        Nat.max (S (let (_, v) := kv in nesting v)) m)
                     0 items).
  induction items as [|[k0 v0] rest IH]; cbn [fold_right In].
  - split; [intros _ k v [] | lia].
  - split.
    + intros H k v [E | Hin]; [injection E as <- <-; lia|].
      apply (proj1 IH ltac:(lia) k v Hin).
    + intros H. apply Nat.max_lub; [apply (H k0 v0); now left|].
      apply (proj2 IH). intros k v Hin. apply (H k v). now right.
Qed.

Lemma nesting_list (depth : nat) (items : list pyvalue) :
  nesting (PyList items) <= depth
  <-> forall v, In v items -> S (nesting v) <= depth.
Proof.
  change (nesting (PyList items))
    with (fold_right (fun v m => Nat.max (S (nesting v)) m) 0 items).
  induction items as [|v0 rest IH]; cbn [fold_right In].
  - split; [intros _ v [] | lia].
  - split.
    + intros H v [<- | Hin]; [lia|]. apply (proj1 IH ltac:(lia) v Hin).
    + intros H. apply Nat.max_lub; [apply (H v0); now left|].
      apply (proj2 IH). intros v Hin. apply (H v). now right.
Qed.

(** The exceptions of the walk are the [TypeError] of [re.sub] on a key
    that is not a string, and the [RecursionError] of the interpreter. *)
Lemma convert_raises (depth : nat) (v : pyvalue) (e : exn) :
  convert_to_snake_case I depth v = Raise e ->
  (exists k, (forall s, k <> PyStr s) /\ e = re_sub_type_error I k)
  \/ e = recursion_error I.
Proof.
  revert depth e. induction v as [v Hv | items IH | items IH]
    using pyvalue_walk_ind; intros depth e H.
  - rewrite (convert_other _ _ Hv) in H. discriminate.
  - rewrite convert_list in H.
    apply list_comprehension_raise in H as (x & Hin & Hx).
    rewrite Forall_forall in IH.
    destruct depth as [|room]; [injection Hx as <-; now right|].
    now apply (IH x Hin room).
  - rewrite convert_dict in H.
    apply dict_comprehension_raise in H as [Hk | (kv & Hin & Hkv)];
      [now left|].
    rewrite Forall_forall in IH.
    destruct depth as [|room]; [injection Hkv as <-; now right|].
    now apply (IH kv Hin room).
Qed.

Lemma convert_raises_uncaught (depth : nat) (v : pyvalue) (e : exn) :
  convert_to_snake_case I depth v = Raise e -> is_parse_error e = false.
Proof.
  intros H. now destruct (convert_raises _ _ _ H) as [(k & _ & ->) | ->].
Qed.

Lemma json_value_str_keyed (v : pyvalue) : json_value v -> str_keyed v.
Proof.
  induction v as [v Hv | items IH | items IH] using pyvalue_walk_ind;
    intros Hj.
  - now apply str_keyed_other.
  - inversion Hj as [ | | | | | items' Hitems | ]; subst.
    apply str_keyed_list. rewrite Forall_forall in *. auto.
  - inversion Hj as [ | | | | | | items' Hkeys Hvals]; subst.
    apply str_keyed_dict; [assumption|]. rewrite Forall_forall in *. auto.
Qed.

(** With string keys and room for its nesting, the walk returns. *)
Lemma convert_within (depth : nat) (v : pyvalue) :
  str_keyed v -> nesting v <= depth ->
  exists y, convert_to_snake_case I depth v = Ok y.
Proof.
  revert depth. induction v as [v Hv | items IH | items IH]
    using pyvalue_walk_ind; intros depth Hs Hn.
  - exists v. now apply convert_other.
  - inversion Hs as [ | items' Hitems | ? Hw]; subst; [|discriminate].
    rewrite convert_list.
    destruct (list_comprehension_total (nested_call I depth) items [])
      as [ys Hys]; [|eexists; exact Hys].
    rewrite Forall_forall in *. intros x Hx.
    pose proof (proj1 (nesting_list depth items) Hn x Hx) as Hd.
    destruct depth as [|room]; [lia|]. simpl.
    apply (IH x Hx); [now apply Hitems | lia].
  - inversion Hs as [items' Hk Hitems | | ? Hw]; subst; [|discriminate].
    rewrite convert_dict.
    destruct (dict_comprehension_total I (nested_call I depth) items [])
      as [out Hout]; trivial; [|eexists; exact Hout].
    rewrite Forall_forall in *. intros [k x] Hx.
    pose proof (proj1 (nesting_dict depth items) Hn k x Hx) as Hd.
    destruct depth as [|room]; [lia|]. simpl.
    apply (IH (k, x) Hx); [now apply (Hitems (k, x)) | simpl; lia].
Qed.

(** The output of the walk has keys that are their own lower-casing,
    each of them once, and is not nested deeper than the walk could go. *)
Lemma convert_output (depth : nat) (v y : pyvalue) :
  convert_to_snake_case I depth v = Ok y ->
  lower_cased y /\ distinct_keys y /\ nesting y <= depth.
Proof.
  revert depth y. induction v as [v Hv | items IH | items IH]
    using pyvalue_walk_ind; intros depth y H.
  - rewrite (convert_other _ _ Hv) in H. injection H as <-.
    repeat split; try now constructor.
    destruct v; try discriminate; simpl; lia.
  - rewrite convert_list in H.
    apply list_comprehension_ok in H as (ys & -> & Hys). simpl app.
    assert (Hall : Forall (fun x => lower_cased x /\ distinct_keys x
                                   /\ S (nesting x) <= depth) ys).
    { induction Hys as [|x x' its ys Hx _ IHys]; [constructor|].
      inversion IH; subst. constructor; [|auto].
      apply nested_call_ok in Hx as (room & -> & Hx).
      match goal with
      | Hi : forall depth y, _ -> _ |- _ =>
          destruct (Hi room x' Hx) as (? & ? & ?)
      end.
      repeat split; trivial; lia. }
    split; [|split].
    + apply lower_cased_list. eapply Forall_impl; [|exact Hall].
      simpl. now intros ? (? & ? & ?).
    + apply distinct_keys_list. eapply Forall_impl; [|exact Hall].
      simpl. now intros ? (? & ? & ?).
    + apply nesting_list. rewrite Forall_forall in Hall.
      intros x Hx. now destruct (Hall x Hx) as (? & ? & ?).
  - rewrite convert_dict in H.
    apply dict_comprehension_ok in H as (out & -> & Hin & Hnd).
    rewrite Forall_forall in IH.
    assert (Hall : forall k1 v1, In (k1, v1) out ->
              (exists k, k1 = PyStr k /\ lower k = k)
              /\ lower_cased v1 /\ distinct_keys v1
              /\ S (nesting v1) <= depth).
    { intros k1 v1 H1. destruct (Hin _ _ H1) as [[] | (ks & v & Hi & -> & Hc)].
      split; [exists (snake_key ks); split;
              [reflexivity | apply lower_snake_key]|].
      apply nested_call_ok in Hc as (room & -> & Hc).
      destruct (IH (PyStr ks, v) Hi room v1 Hc) as (? & ? & ?).
      repeat split; trivial; lia. }
    split; [|split].
    + apply lower_cased_dict; apply Forall_forall; intros [k1 v1] H1;
        simpl; now destruct (Hall _ _ H1) as (? & ? & ? & ?).
    + apply distinct_keys_dict; [apply Hnd; constructor|].
      apply Forall_forall; intros [k1 v1] H1;
        simpl; now destruct (Hall _ _ H1) as (? & ? & ? & ?).
    + apply nesting_dict. intros k1 v1 H1.
      now destruct (Hall _ _ H1) as (? & ? & ? & ?).
Qed.

(** On a value with distinct keys that are their own lower-casing, and
    room for its nesting, the walk changes nothing. *)
Lemma convert_fixed (depth : nat) (v : pyvalue) :
  distinct_keys v -> lower_cased v -> nesting v <= depth ->
  convert_to_snake_case I depth v = Ok v.
Proof.
  revert depth. induction v as [v Hv | items IH | items IH]
    using pyvalue_walk_ind; intros depth Hd Hs Hn.
  - now apply convert_other.
  - inversion Hd as [ | items' Hd' | ? Hw]; subst; [|discriminate].
    inversion Hs as [ | items' Hs' | ? Hw]; subst; [|discriminate].
    rewrite convert_list. apply list_comprehension_fixed.
    rewrite Forall_forall in *. intros x Hx.
    pose proof (proj1 (nesting_list depth items) Hn x Hx) as Hr.
    destruct depth as [|room]; [lia|]. simpl.
    apply (IH x Hx); auto; lia.
  - inversion Hd as [items' Hnd Hd' | | ? Hw]; subst; [|discriminate].
    inversion Hs as [items' Hk Hs' | | ? Hw]; subst; [|discriminate].
    rewrite convert_dict. apply dict_comprehension_fixed; trivial.
    rewrite Forall_forall in *. intros [k x] Hx.
    pose proof (proj1 (nesting_dict depth items) Hn k x Hx) as Hr.
    destruct depth as [|room]; [lia|]. simpl.
    apply (IH (k, x) Hx);
      [apply (Hd' (k, x) Hx) | apply (Hs' (k, x) Hx) | simpl; lia].
Qed.

Lemma last_binding_in (items : list (pyvalue * pyvalue)) (k' : pystr)
      (v : pyvalue) :
  last_binding items k' = Some v -> exists k, In (k, v) items.
Proof.
  induction items as [|[k0 v0] rest IH]; [discriminate|].
  simpl. destruct (last_binding rest k') as [later|].
  - intros H. injection H as ->. destruct IH as [k Hk]; [reflexivity|].
    exists k. now right.
  - destruct k0; try discriminate.
    destruct (pystr_eqb _ _); [|discriminate].
    intros H. injection H as ->. eexists. now left.
Qed.

Lemma dict_get_in (d : list (pyvalue * pyvalue)) (k : pystr) (v : pyvalue) :
  dict_get d k = Some v -> In (PyStr k, v) d.
Proof.
  induction d as [|[k0 v0] r IH]; [discriminate|].
  simpl. destruct (key_is k0 k) eqn:Hk.
  - apply key_is_true in Hk. subst k0. intros H. injection H as ->. now left.
  - intros H. right. now apply IH.
Qed.

Lemma in_dict_get (d : list (pyvalue * pyvalue)) (k : pystr) (v : pyvalue) :
  NoDup (map fst d) -> In (PyStr k, v) d -> dict_get d k = Some v.
Proof.
  induction d as [|[k0 v0] r IH]; [intros _ []|].
  simpl. intros Hnd [E | Hin].
  - injection E as -> ->. simpl. now rewrite pystr_eqb_refl.
  - inversion Hnd as [|? ? Hnot Hr]; subst.
    destruct (key_is k0 k) eqn:Hk; [|now apply IH].
    apply key_is_true in Hk. subst k0. exfalso. apply Hnot.
    now apply (in_map fst) in Hin.
Qed.

Lemma dict_comprehension_bindings (conv : pyvalue -> result pyvalue)
      (its acc out : list (pyvalue * pyvalue)) (k' : pystr) :
  dict_comprehension I conv its acc = Ok (PyDict out) ->
  (forall v, last_binding its k' = Some v ->
             exists cv, conv v = Ok cv /\ dict_get out k' = Some cv)
  /\ (last_binding its k' = None -> dict_get out k' = dict_get acc k').
Proof.
  revert acc. induction its as [|[k v] rest IH]; intros acc H.
  - injection H as <-. split; [discriminate | reflexivity].
  - destruct k; try discriminate.
    rewrite dict_comprehension_str in H.
    destruct (conv v) as [cv|e] eqn:Hv; [|discriminate].
    destruct (IH _ H) as [Hsome Hnone]. simpl.
    destruct (last_binding rest k') as [later|].
    + split; [|discriminate]. intros v0 E. injection E as <-.
      now apply Hsome.
    + rewrite (Hnone eq_refl), dict_get_set, <- snake_key_rule.
      destruct (pystr_eqb (snake_key s) k'); split; try discriminate.
      * intros v0 E. injection E as <-. now exists cv.
      * reflexivity.
Qed.

(** What the walk returns is its argument with every key snake-cased at
    every depth. *)
Lemma convert_snake_casing (depth : nat) (v y : pyvalue) :
  convert_to_snake_case I depth v = Ok y -> snake_casing v y.
Proof.
  revert depth y. induction v as [v Hv | items IH | items IH]
    using pyvalue_walk_ind; intros depth y H.
  - rewrite (convert_other _ _ Hv) in H. injection H as <-.
    now apply snake_casing_other.
  - rewrite convert_list in H.
    apply list_comprehension_ok in H as (ys & -> & Hys). simpl app.
    apply snake_casing_list.
    induction Hys as [|x x' its ys Hx _ IHys]; [constructor|].
    inversion IH; subst. constructor; [|auto].
    apply nested_call_ok in Hx as (room & -> & Hx). eauto.
  - rewrite convert_dict in H.
    destruct (dict_comprehension_ok _ _ _ _ _ H) as (out & -> & Hin & Hnd).
    specialize (Hnd (NoDup_nil _)).
    rewrite Forall_forall in IH.
    apply snake_casing_dict; trivial.
    + apply Forall_forall. intros [k1 v1] H1.
      destruct (Hin _ _ H1) as [[] | (ks & v & _ & -> & _)]. now eexists.
    + intros k' v' H1. pose proof (in_dict_get _ _ _ Hnd H1) as Hget.
      destruct (dict_comprehension_bindings _ _ _ _ k' H) as [Hsome Hnone].
      destruct (last_binding items k') as [v|] eqn:Hl.
      * exists v. split; [reflexivity|].
        destruct (Hsome v eq_refl) as (cv & Hcv & Hget').
        rewrite Hget in Hget'. injection Hget' as <-.
        apply nested_call_ok in Hcv as (room & -> & Hcv).
        destruct (last_binding_in _ _ _ Hl) as [k Hk].
        exact (IH (k, v) Hk room v' Hcv).
      * rewrite (Hnone eq_refl) in Hget. discriminate.
    + intros k' v Hl.
      destruct (dict_comprehension_bindings _ _ _ _ k' H) as [Hsome _].
      destruct (Hsome v Hl) as (cv & _ & Hget).
      exists cv. now apply dict_get_in.
Qed.

(** Keys in snake_case are their own lower-casing. *)
Lemma snake_cased_lower_cased (v : pyvalue) : snake_cased v -> lower_cased v.
Proof.
  induction v as [v Hv | items IH | items IH] using pyvalue_walk_ind;
    intros H.
  - now apply lower_cased_other.
  - inversion H as [ | items' Hitems | ? Hw]; subst; [|discriminate].
    apply lower_cased_list. rewrite Forall_forall in *. auto.
  - inversion H as [items' Hk Hitems | | ? Hw]; subst; [|discriminate].
    apply lower_cased_dict; rewrite Forall_forall in *.
    + intros kv Hin. destruct (Hk kv Hin) as (k & Hfst & Hsnake).
      exists k. split; [exact Hfst|].
      now apply lower_no_upper, is_snake_case_no_upper.
    + auto.
Qed.

(** The object nested [n] deep. *)
Lemma deep_dict_shape (n : nat) :
  json_value (deep_dict n) /\ distinct_keys (deep_dict n)
  /\ snake_cased (deep_dict n) /\ nesting (deep_dict n) = n.
Proof.
  induction n as [|m (Hj & Hd & Hl & Hn)].
  - repeat split; now constructor.
  - repeat split.
    + apply json_dict; (apply Forall_cons; [|apply Forall_nil]);
        [now eexists | exact Hj].
    + apply distinct_keys_dict.
      * apply NoDup_cons; [intros [] | apply NoDup_nil].
      * apply Forall_cons; [exact Hd | apply Forall_nil].
    + apply snake_cased_dict; (apply Forall_cons; [|apply Forall_nil]);
        [eexists; split; reflexivity | exact Hl].
    + simpl. rewrite Hn. lia.
Qed.

Lemma deep_dict_overflows (n depth : nat) :
  depth < n ->
  convert_to_snake_case I depth (deep_dict n) = Raise (recursion_error I).
Proof.
  revert depth. induction n as [|m IH]; intros depth H; [lia|].
  simpl deep_dict. rewrite convert_dict, dict_comprehension_str.
  destruct depth as [|room]; [reflexivity|].
  simpl nested_call. rewrite IH by lia. reflexivity.
Qed.

End Walk.

(** C6, as the code has it. The recursive key normalization is
    idempotent. A value whose dicts have distinct keys, all in snake_case
    (and more generally all their own lower-casing) at every depth of the
    walk, and whose nesting the recursion limit leaves room for, is
    returned equal to itself; and a value the transformation returns is
    returned unchanged when the transformation is applied to it again. *)
Theorem convert_to_snake_case_idempotent (I : Interpreter) (depth : nat)
        (obj : pyvalue) :
  (distinct_keys obj -> snake_cased obj -> nesting obj <= depth ->
   convert_to_snake_case I depth obj = Ok obj)
  /\ (distinct_keys obj -> lower_cased obj -> nesting obj <= depth ->
      convert_to_snake_case I depth obj = Ok obj)
  /\ (forall once, convert_to_snake_case I depth obj = Ok once ->
        convert_to_snake_case I depth once = Ok once).
Proof.
  split; [|split].
  - intros Hd Hs Hn.
    apply convert_fixed; trivial. now apply snake_cased_lower_cased.
  - apply convert_fixed.
  - intros once H. destruct (convert_output _ _ _ _ H) as (? & ? & ?).
    now apply convert_fixed.
Qed.

Lemma convert_to_snake_case_idempotent_witness :
  convert_to_snake_case Samples.sample_interpreter 490
    (PyDict [ (PyStr (py "overall_score"), PyInt 7);
              (PyStr (py "skills"),
               PyList [PyDict [(PyStr (py "skill_name"), PyNone)]]) ])
  = Ok (PyDict [ (PyStr (py "overall_score"), PyInt 7);
                 (PyStr (py "skills"),
                  PyList [PyDict [(PyStr (py "skill_name"), PyNone)]]) ])
  /\ convert_to_snake_case Samples.sample_interpreter 490
       (PyDict [(PyStr (py "first name"), PyInt 7)])
     = Ok (PyDict [(PyStr (py "first name"), PyInt 7)])
  /\ convert_to_snake_case Samples.sample_interpreter 490
       (PyDict [(PyStr (py "overall_score"), PyInt 7)])
     = Ok (PyDict [(PyStr (py "overall_score"), PyInt 7)]).
Proof.
  split; [|split].
  - apply (proj1 (convert_to_snake_case_idempotent _ _ _)).
    + apply distinct_keys_dict.
      * repeat constructor; simpl; intuition discriminate.
      * repeat constructor. simpl. intros [].
    + apply snake_cased_dict.
      * repeat constructor; eexists; split; reflexivity.
      * apply Forall_cons; [now apply snake_cased_other|].
        apply Forall_cons; [|apply Forall_nil]. simpl.
        apply snake_cased_list. apply Forall_cons; [|apply Forall_nil].
        apply snake_cased_dict; repeat constructor.
        eexists; split; reflexivity.
    + vm_compute. lia.
  - apply (proj1 (proj2 (convert_to_snake_case_idempotent _ _ _))).
    + apply distinct_keys_dict; repeat constructor. intros [].
    + apply lower_cased_dict; repeat constructor.
      eexists; split; reflexivity.
    + vm_compute. lia.
  - apply (proj2 (proj2 (convert_to_snake_case_idempotent
                           Samples.sample_interpreter 490
                           (PyDict [(PyStr (py "overallScore"), PyInt 7)])))).
    reflexivity.
Defined.

(** C6, as stated, fails: the object nested 1200 deep has distinct
    snake_case keys, and the walk, with room for 490 levels of nested
    calls, raises [RecursionError] on it. *)
Lemma deep_mapping_is_not_returned :
  distinct_keys (deep_dict 1200)
  /\ snake_cased (deep_dict 1200)
  /\ convert_to_snake_case Samples.sample_interpreter 490 (deep_dict 1200)
     = Raise (recursion_error Samples.sample_interpreter)
  /\ convert_to_snake_case Samples.sample_interpreter 490 (deep_dict 1200)
     <> Ok (deep_dict 1200).
Proof.
  destruct (deep_dict_shape 1200) as (_ & Hd & Hl & _).
  assert (H : convert_to_snake_case Samples.sample_interpreter 490
                (deep_dict 1200)
              = Raise (recursion_error Samples.sample_interpreter)).
  { apply deep_dict_overflows. lia. }
  repeat split; trivial. rewrite H. discriminate.
Qed.

(** C10. When several keys of one mapping normalize to the same key,
    no error is raised (a mapping with string keys whose values are
    transformed without error is transformed without error, into a dict
    that binds each key once), and the normalized key is bound to the
    transformed value of the last of its original keys in iteration
    order. *)
Theorem colliding_keys_last_wins (I : Interpreter) (depth : nat)
        (items : list (pyvalue * pyvalue)) :
  (Forall (fun kv => exists k, fst kv = PyStr k) items ->
   Forall (fun kv => exists y, nested_call I depth (snd kv) = Ok y) items ->
   exists out, convert_to_snake_case I depth (PyDict items) = Ok (PyDict out)
               /\ NoDup (map fst out))
  /\ (forall before k v after cleaned,
        items = before ++ (PyStr k, v) :: after ->
        (forall k2 v2, In (PyStr k2, v2) after ->
                       snake_key k2 <> snake_key k) ->
        convert_to_snake_case I depth (PyDict items) = Ok cleaned ->
        exists out cv,
          cleaned = PyDict out
          /\ nested_call I depth v = Ok cv
          /\ dict_get out (snake_key k) = Some cv).
Proof.
  split.
  - intros Hk Hv. rewrite convert_dict.
    destruct (dict_comprehension_total I (nested_call I depth) items []
                Hk Hv) as [out Hout].
    exists out. split; [assumption|].
    rewrite <- convert_dict in Hout.
    destruct (convert_output _ _ _ _ Hout) as (_ & Hd & _).
    inversion Hd as [? Hnd _ | | ? Hw]; subst; [assumption|discriminate].
  - intros before k v after cleaned -> Hlater H.
    rewrite convert_dict in H.
    destruct (dict_comprehension_ok _ _ _ _ _ H) as (out & -> & _).
    destruct (dict_comprehension_last _ _ _ _ _ _ _ _ H Hlater)
      as (cv & Hcv & Hget).
    now exists out, cv.
Qed.

Lemma colliding_keys_last_wins_witness :
  (exists out,
     convert_to_snake_case Samples.sample_interpreter 490
       (PyDict [(PyStr (py "aB"), PyInt 1); (PyStr (py "a_b"), PyInt 2)])
     = Ok (PyDict out) /\ NoDup (map fst out))
  /\ exists out cv,
       Ok (PyDict [(PyStr (py "a_b"), PyInt 2)]) = Ok (PyDict out)
       /\ nested_call Samples.sample_interpreter 490 (PyInt 2) = Ok cv
       /\ dict_get out (snake_key (py "a_b")) = Some cv.
Proof.
  pose proof (colliding_keys_last_wins Samples.sample_interpreter 490
                [(PyStr (py "aB"), PyInt 1); (PyStr (py "a_b"), PyInt 2)])
    as [Hok Hlast].
  split.
  - apply Hok; repeat constructor; eexists; reflexivity.
  - destruct (Hlast [(PyStr (py "aB"), PyInt 1)] (py "a_b") (PyInt 2) []
                    (PyDict [(PyStr (py "a_b"), PyInt 2)]))
      as (out & cv & E & Hcv & Hget).
    + reflexivity.
    + intros k2 v2 [].
    + reflexivity.
    + injection E as <-. exists [(PyStr (py "a_b"), PyInt 2)], cv.
      repeat split; assumption.
Defined.

(** The mapping with the keys [aB] and [a_b], in both orders. *)
Example colliding_keys_sample :
  convert_to_snake_case Samples.sample_interpreter 490
    (PyDict [(PyStr (py "aB"), PyInt 1); (PyStr (py "a_b"), PyInt 2)])
  = Ok (PyDict [(PyStr (py "a_b"), PyInt 2)])
  /\ convert_to_snake_case Samples.sample_interpreter 490
       (PyDict [(PyStr (py "a_b"), PyInt 2); (PyStr (py "aB"), PyInt 1)])
     = Ok (PyDict [(PyStr (py "a_b"), PyInt 1)]).
Proof. split; reflexivity. Qed.

(* ================================================================= *)
(** * [clean_json_string] *)

Lemma try_attempts_all_fail (P : Parsers)
      (attempts : list (pystr -> result pyvalue))
      (w : pystr) (tried : nat) :
  Forall (fun attempt => attempt_fails attempt w) attempts ->
  try_attempts P attempts w tried
  = (tried + List.length attempts, Ok (failure_record w)).
Proof.
  intros H. revert tried.
  induction H as [|attempt rest (e & He & Hc) _ IH]; intros tried; simpl.
  - now rewrite Nat.add_0_r.
  - rewrite He. simpl. rewrite Hc, IH. f_equal. lia.
Qed.

Lemma try_attempts_app_fail (P : Parsers)
      (front back : list (pystr -> result pyvalue))
      (w : pystr) (tried : nat) :
  Forall (fun attempt => attempt_fails attempt w) front ->
  try_attempts P (front ++ back) w tried
  = try_attempts P back w (tried + List.length front).
Proof.
  intros H. revert tried.
  induction H as [|attempt rest (e & He & Hc) _ IH]; intros tried; simpl.
  - now rewrite Nat.add_0_r.
  - rewrite He. simpl. rewrite Hc, IH. f_equal. lia.
Qed.

Lemma parsing_attempts_split (P : Parsers) :
  parsing_attempts P = json_attempts P ++ [fun s => literal_eval P s].
Proof. reflexivity. Qed.

Lemma convert_parsed_uncaught (P : Parsers) (v : pyvalue) (e : exn) :
  convert_parsed P v = Raise e -> is_parse_error e = false.
Proof. apply convert_raises_uncaught. Qed.

(** C1, as the code has it. When all five attempts fail, the failure
    record is returned with the two fixed messages, and its
    [original_string] is the working string: the input itself when no
    fence was detected, and a different, shorter string, the fence
    stripped, when one was. *)
Theorem failure_record_original_string (P : Parsers) (json_string : pystr) :
  all_attempts_fail P (working_string json_string) ->
  clean_json_string P json_string
  = Ok (failure_record (working_string json_string))
  /\ (fenced json_string = false -> working_string json_string = json_string)
  /\ (fenced json_string = true -> working_string json_string <> json_string).
Proof.
  intros H. split; [|split].
  - unfold clean_json_string, clean_json_string_run.
    now rewrite (try_attempts_all_fail _ _ _ _ H).
  - apply working_string_unfenced.
  - apply working_string_fenced_differs.
Qed.

Lemma failure_record_original_string_witness :
  clean_json_string Samples.parsers Samples.fenced_text
  = Ok (failure_record (py "not json at all" ++ [NL]))
  /\ py "not json at all" ++ [NL] <> Samples.fenced_text.
Proof.
  destruct (failure_record_original_string Samples.parsers Samples.fenced_text)
    as (Hrec & _ & Hdiff).
  - repeat constructor; eexists; split; reflexivity.
  - split; [exact Hrec|]. apply Hdiff. reflexivity.
Defined.

(** C3, as the code has it. When the four JSON attempts fail, an
    exception of [ast.literal_eval] that is neither a [JSONDecodeError]
    nor a [SyntaxError] leaves [clean_json_string], and so does the
    [TypeError] of the key transformation on a value that
    [ast.literal_eval] returned. *)
Theorem clean_json_string_raises (P : Parsers) (json_string : pystr) :
  json_attempts_fail P (working_string json_string) ->
  (forall e, literal_eval P (working_string json_string) = Raise e ->
             is_parse_error e = false ->
             clean_json_string P json_string = Raise e)
  /\ (forall v e, literal_eval P (working_string json_string) = Ok v ->
                  convert_parsed P v = Raise e ->
                  clean_json_string P json_string = Raise e).
Proof.
  intros H. unfold clean_json_string, clean_json_string_run.
  rewrite parsing_attempts_split, (try_attempts_app_fail _ _ _ _ _ H).
  split.
  - intros e He Hc. simpl. rewrite He. simpl. now rewrite Hc.
  - intros v e Hv He. simpl. rewrite Hv. simpl.
    now rewrite He, (convert_parsed_uncaught _ _ _ He).
Qed.

Lemma clean_json_string_raises_witness :
  clean_json_string Samples.parsers (py "foo")
  = Raise (PyExc ValueError (py "malformed node or string"))
  /\ clean_json_string Samples.parsers (py "{1: 2}")
     = Raise (re_sub_type_error Samples.sample_interpreter (PyInt 1)).
Proof.
  split.
  - apply (proj1 (clean_json_string_raises Samples.parsers (py "foo")
                    ltac:(repeat constructor; eexists; split; reflexivity)));
      reflexivity.
  - apply (proj2 (clean_json_string_raises Samples.parsers (py "{1: 2}")
                    ltac:(repeat constructor; eexists; split; reflexivity))
                 (PyDict [(PyInt 1, PyInt 2)])); reflexivity.
Defined.

Lemma try_attempts_first_success (P : Parsers)
      (front back : list (pystr -> result pyvalue))
      (attempt : pystr -> result pyvalue) (w : pystr) (tried : nat)
      (parsed cleaned : pyvalue) :
  Forall (fun a => attempt_fails a w) front ->
  attempt w = Ok parsed ->
  convert_parsed P parsed = Ok cleaned ->
  try_attempts P (front ++ attempt :: back) w tried
  = (S (tried + List.length front), Ok cleaned).
Proof.
  intros Hf Hp Hc. rewrite (try_attempts_app_fail _ _ _ _ _ Hf).
  simpl. rewrite Hp. simpl. now rewrite Hc.
Qed.

Lemma clean_json_string_first_run (P : Parsers) (json_string : pystr)
      (parsed cleaned : pyvalue) :
  json_loads P (working_string json_string) = Ok parsed ->
  convert_parsed P parsed = Ok cleaned ->
  clean_json_string_run P json_string = (1, Ok cleaned).
Proof.
  intros Hp Hc. unfold clean_json_string_run.
  change (parsing_attempts P)
    with ([] ++ (fun s => json_loads P s) :: tl (parsing_attempts P)).
  now rewrite (try_attempts_first_success P [] _ _ _ 0 parsed cleaned
                 (Forall_nil _) Hp Hc).
Qed.

(** C4, as the code has it. When the working string is valid JSON, that
    is, [json.loads] returns a value on it, and the recursion limit
    leaves room for the nesting of that value, the first attempt succeeds
    and is the only one called, and [clean_json_string] returns the
    parsed value with every key snake-cased at every depth: its keys are
    the rewritten keys of the parsed value, bound to the rewritten values
    (the last item winning when two keys are rewritten alike), its lists
    are rewritten element by element, and everything else is as it was
    parsed. *)
Theorem valid_json_short_circuits (P : Parsers) (json_string : pystr)
        (parsed : pyvalue) :
  json_loads P (working_string json_string) = Ok parsed ->
  json_value parsed ->
  nesting parsed <= recursion_room (interpreter P) ->
  exists cleaned,
    clean_json_string P json_string = Ok cleaned
    /\ attempts_tried P json_string = 1
    /\ snake_casing parsed cleaned
    /\ lower_cased cleaned.
Proof.
  intros Hp Hj Hn.
  destruct (convert_within (interpreter P) _ _
              (json_value_str_keyed _ Hj) Hn) as [cleaned Hc].
  exists cleaned.
  unfold clean_json_string, attempts_tried.
  rewrite (clean_json_string_first_run P json_string parsed cleaned Hp Hc).
  repeat split.
  - exact (convert_snake_casing _ _ _ _ Hc).
  - now destruct (convert_output _ _ _ _ Hc) as (? & ? & ?).
Qed.

Lemma valid_json_short_circuits_witness :
  exists cleaned,
    clean_json_string Samples.parsers Samples.jane_text = Ok cleaned
    /\ attempts_tried Samples.parsers Samples.jane_text = 1
    /\ snake_casing Samples.jane_parsed cleaned
    /\ lower_cased cleaned.
Proof.
  apply (valid_json_short_circuits Samples.parsers Samples.jane_text
           Samples.jane_parsed).
  - reflexivity.
  - apply json_dict.
    + repeat constructor; eexists; reflexivity.
    + repeat constructor.
  - vm_compute. lia.
Defined.

(** C4, as stated, fails: the text of the object nested 600 deep is
    valid JSON, [json.loads] returns the object, and the walk, with room
    for 490 nested calls, raises a [RecursionError] that nothing
    catches. *)
Lemma deep_json_raises :
  json_loads Samples.parsers (working_string (deep_text 600))
  = Ok (deep_dict 600)
  /\ json_value (deep_dict 600)
  /\ clean_json_string Samples.parsers (deep_text 600)
     = Raise (recursion_error Samples.sample_interpreter).
Proof.
  split; [vm_compute; reflexivity|].
  split; [apply (deep_dict_shape 600)|].
  vm_compute. reflexivity.
Qed.

(** The scenario of the specification: the two camelCase keys. *)
Example jane_scenario :
  clean_json_string Samples.parsers Samples.jane_text
  = Ok (PyDict [ (PyStr (py "candidate_name"), PyStr (py "Jane"));
                 (PyStr (py "score_out_of_ten"), PyInt 7) ]).
Proof. reflexivity. Qed.

(* ================================================================= *)
(** * Extraction *)

Section Extraction.

Variable R : Readers.

Lemma docx_is_not_pdf (name : pystr) :
  endswith (py ".docx") name = true -> endswith (py ".pdf") name = false.
Proof.
  unfold endswith. destruct (rev name) as [|c r]; [discriminate|].
  intros H. change (rev (py ".docx")) with ("x"%char :: py "cod.") in H.
  change (rev (py ".pdf")) with ("f"%char :: py "dp.").
  rewrite startswith_cons in *.
  apply andb_true_iff in H as [E _].
  apply Ascii.eqb_eq in E. now subst c.
Qed.

Lemma extract_pdf (file : UploadFile) (name : pystr) (pages : list pystr) :
  filename file = Some name ->
  endswith (py ".pdf") (lower name) = true ->
  pdf_page_texts R (content file) = Ok pages ->
  extract_text_from_file R file = Ok (join [SP] pages).
Proof.
  intros Hn Hpdf Hp. unfold extract_text_from_file, extract_text_body.
  now rewrite Hn, Hpdf, Hp.
Qed.

Lemma extract_docx (file : UploadFile) (name : pystr)
      (paragraphs : list pystr) :
  filename file = Some name ->
  endswith (py ".docx") (lower name) = true ->
  docx_paragraph_texts R (content file) = Ok paragraphs ->
  extract_text_from_file R file = Ok (join [SP] (filter truthy paragraphs)).
Proof.
  intros Hn Hdocx Hp. unfold extract_text_from_file, extract_text_body.
  now rewrite Hn, (docx_is_not_pdf _ Hdocx), Hdocx, Hp.
Qed.

Lemma extract_unsupported (file : UploadFile) (name : pystr) :
  filename file = Some name ->
  supported name = false ->
  extract_text_from_file R file
  = Raise (HTTPException 500
             (py "Error extracting text: "
              ++ http_exception_str R 400 (py "Unsupported file type"))).
Proof.
  intros Hn Hs. unfold supported in Hs.
  apply orb_false_iff in Hs as [Hs Htxt].
  apply orb_false_iff in Hs as [Hpdf Hdocx].
  unfold extract_text_from_file, extract_text_body.
  now rewrite Hn, Hpdf, Hdocx, Htxt.
Qed.

End Extraction.

(** C7. A PDF is extracted to the texts of its pages joined by single
    spaces, empty texts included: pages that yield the empty string and
    [World] give [World] after a space. A DOCX is extracted to its
    paragraph texts that are not empty, joined by single spaces:
    [Hello], an empty paragraph and [World] give [Hello World]. *)
Theorem extraction_joins (R : Readers) (file : UploadFile) (name : pystr) :
  filename file = Some name ->
  (forall pages,
     endswith (py ".pdf") (lower name) = true ->
     pdf_page_texts R (content file) = Ok pages ->
     extract_text_from_file R file = Ok (join [SP] pages))
  /\ (forall paragraphs,
        endswith (py ".docx") (lower name) = true ->
        docx_paragraph_texts R (content file) = Ok paragraphs ->
        extract_text_from_file R file
        = Ok (join [SP] (filter truthy paragraphs)))
  /\ join [SP] [py ""; py "World"] = py " World"
  /\ join [SP] (filter truthy [py "Hello"; py ""; py "World"])
     = py "Hello World".
Proof.
  intros Hn. repeat split.
  - intros pages. now apply extract_pdf.
  - intros paragraphs. now apply extract_docx.
Qed.

Lemma extraction_joins_witness :
  extract_text_from_file Samples.readers (Samples.upload "cv.PDF")
  = Ok (py " World")
  /\ extract_text_from_file Samples.readers (Samples.upload "cv.docx")
     = Ok (py "Hello World").
Proof.
  split.
  - apply (proj1 (extraction_joins Samples.readers (Samples.upload "cv.PDF")
                    (py "cv.PDF") eq_refl) [py ""; py "World"]);
      reflexivity.
  - apply (proj1 (proj2 (extraction_joins Samples.readers
                           (Samples.upload "cv.docx") (py "cv.docx") eq_refl))
                 [py "Hello"; py ""; py "World"]); reflexivity.
Defined.

(** C2, as the code has it. For a file whose name has none of the three
    extensions, whatever its bytes, the [HTTPException] with status 400
    is raised inside the [try] and caught by its [except Exception]:
    what leaves [extract_text_from_file] is an [HTTPException] with
    status 500, and [match_resume] answers with status 500. *)
Theorem unsupported_type_status (R : Readers) (file : UploadFile)
        (name : pystr) (analyse : pystr -> result pyvalue) :
  filename file = Some name ->
  supported name = false ->
  extract_text_body R file
  = Raise (HTTPException 400 (py "Unsupported file type"))
  /\ extract_text_from_file R file
     = Raise (HTTPException 500
                (py "Error extracting text: "
                 ++ http_exception_str R 400 (py "Unsupported file type")))
  /\ exists response,
       match_resume R analyse file = Ok response
       /\ status_code response = 500%Z.
Proof.
  intros Hn Hs. pose proof (extract_unsupported R file name Hn Hs) as He.
  split; [|split; [exact He|]].
  - unfold supported in Hs.
    apply orb_false_iff in Hs as [Hs Htxt].
    apply orb_false_iff in Hs as [Hpdf Hdocx].
    unfold extract_text_body. now rewrite Hn, Hpdf, Hdocx, Htxt.
  - unfold match_resume. rewrite He. simpl. eexists. split; reflexivity.
Qed.

Lemma unsupported_type_status_witness :
  extract_text_from_file Samples.readers (Samples.upload "resume.rtf")
  = Raise (HTTPException 500
             (py "Error extracting text: 400: Unsupported file type")).
Proof.
  exact (proj1 (proj2 (unsupported_type_status Samples.readers
                         (Samples.upload "resume.rtf") (py "resume.rtf")
                         (fun _ => Ok PyNone) eq_refl eq_refl))).
Defined.

(* ================================================================= *)
(** * Further properties of the normalized text *)

Lemma split_from_app_space (a b w : pystr) (c : ascii) :
  isspace c = true ->
  split_from w (a ++ c :: b) = split_from w a ++ split b.
Proof.
  intros Hc. revert w. induction a as [|x a IH]; intros w; simpl.
  - now rewrite Hc.
  - destruct (isspace x); [|apply IH].
    now rewrite IH, app_assoc.
Qed.

Lemma split_join (parts : list pystr) :
  split (join [SP] parts) = flat_map split parts.
Proof.
  induction parts as [|w [|w' rest] IH]; [reflexivity| |].
  - simpl. now rewrite app_nil_r.
  - change (join [SP] (w :: w' :: rest))
      with (w ++ SP :: join [SP] (w' :: rest)).
    unfold split at 1. rewrite split_from_app_space by reflexivity.
    now rewrite IH.
Qed.

Lemma split_word (w : pystr) : word w -> split w = [w].
Proof.
  intros [Hne Hw]. unfold split.
  rewrite <- (app_nil_r w) at 1. rewrite split_from_word by assumption.
  simpl. destruct w; [contradiction|reflexivity].
Qed.

Lemma flat_map_split_words (ws : list pystr) :
  Forall word ws -> flat_map split ws = ws.
Proof.
  induction 1 as [|w ws Hw _ IH]; [reflexivity|].
  simpl. now rewrite (split_word _ Hw), IH.
Qed.

Lemma split_words (s : pystr) : Forall word (split s).
Proof. exact (words_of_words _ _ (split_words_of s)). Qed.

(** X1. Normalizing a text that is already normalized changes nothing. *)
Theorem convert_to_single_string_idempotent (text : pystr) :
  convert_to_single_string (convert_to_single_string text)
  = convert_to_single_string text.
Proof.
  unfold convert_to_single_string.
  now rewrite split_join, (flat_map_split_words _ (split_words text)).
Qed.

Lemma concat_split_from (s w : pystr) :
  List.concat (split_from w s) = w ++ filter (fun c => negb (isspace c)) s.
Proof.
  revert w. induction s as [|c t IH]; intros w; simpl.
  - destruct w; simpl; now rewrite ?app_nil_r.
  - destruct (isspace c); simpl.
    + rewrite List.concat_app, IH. destruct w; simpl; now rewrite ?app_nil_r.
    + rewrite IH. now rewrite <- app_assoc.
Qed.

Lemma filter_join_space (parts : list pystr) :
  filter (fun c => negb (isspace c)) (join [SP] parts)
  = filter (fun c => negb (isspace c)) (List.concat parts).
Proof.
  induction parts as [|w [|w' rest] IH]; [reflexivity| |].
  - simpl. now rewrite app_nil_r.
  - change (join [SP] (w :: w' :: rest))
      with (w ++ SP :: join [SP] (w' :: rest)).
    change (List.concat (w :: w' :: rest)) with (w ++ List.concat (w' :: rest)).
    rewrite !filter_app.
    change (filter (fun c => negb (isspace c))
                   (SP :: join [SP] (w' :: rest)))
      with (filter (fun c => negb (isspace c)) (join [SP] (w' :: rest))).
    now rewrite IH.
Qed.

Lemma filter_twice (f : ascii -> bool) (s : pystr) :
  filter f (filter f s) = filter f s.
Proof.
  induction s as [|c t IH]; [reflexivity|].
  simpl. destruct (f c) eqn:E; simpl; now rewrite ?E, IH.
Qed.

Lemma filter_nonspace_normalized (text : pystr) :
  filter (fun c => negb (isspace c)) (convert_to_single_string text)
  = filter (fun c => negb (isspace c)) text.
Proof.
  unfold convert_to_single_string, split.
  rewrite filter_join_space, concat_split_from. simpl.
  apply filter_twice.
Qed.

(** X2. Normalization loses and reorders no character that is not white
    space: with the white space taken out, the output and the input are
    the same string. *)
Theorem convert_to_single_string_keeps_text (text : pystr) :
  filter (fun c => negb (isspace c)) (convert_to_single_string text)
  = filter (fun c => negb (isspace c)) text.
Proof. apply filter_nonspace_normalized. Qed.

Lemma filter_nonspace_nil (s : pystr) :
  filter (fun c => negb (isspace c)) s = [] -> blank s.
Proof.
  induction s as [|c t IH]; intros H; [constructor|].
  simpl in H. destruct (isspace c) eqn:E; [|discriminate].
  constructor; [assumption | now apply IH].
Qed.

(** X3. The normalized text is empty exactly when the input is empty or
    all white space. *)
Theorem convert_to_single_string_empty (text : pystr) :
  convert_to_single_string text = [] <-> blank text.
Proof.
  split.
  - intros H. apply filter_nonspace_nil.
    rewrite <- filter_nonspace_normalized. now rewrite H.
  - intros H. unfold convert_to_single_string, split.
    rewrite <- (app_nil_r text). now rewrite split_from_blank.
Qed.

Lemma convert_to_single_string_empty_witness :
  convert_to_single_string [SP; NL; SP] = [].
Proof.
  apply (proj2 (convert_to_single_string_empty [SP; NL; SP])).
  repeat constructor.
Defined.

Lemma join_cons_length (w : pystr) (rest : list pystr) :
  List.length (join [SP] (w :: rest))
  <= List.length w + List.length (join [SP] rest) + match rest with
                                                    | [] => 0
                                                    | _ => 1
                                                    end.
Proof.
  destruct rest as [|w' rest]; [simpl; lia|].
  change (join [SP] (w :: w' :: rest))
    with (w ++ SP :: join [SP] (w' :: rest)).
  rewrite length_app. simpl. lia.
Qed.

Lemma join_split_from_length (s w : pystr) :
  List.length (join [SP] (split_from w s)) <= List.length w + List.length s.
Proof.
  revert w. induction s as [|c t IH]; intros w; simpl.
  - destruct w; simpl; lia.
  - destruct (isspace c).
    + specialize (IH []). simpl in IH.
      destruct w as [|a w']; [simpl; lia|].
      change (flush (a :: w') ++ split_from [] t)
        with ((a :: w') :: split_from [] t).
      pose proof (join_cons_length (a :: w') (split_from [] t)) as H.
      destruct (split_from [] t); simpl in *; lia.
    + specialize (IH (w ++ [c])). rewrite length_app in IH. simpl in IH. lia.
Qed.

(** X4. The normalized text is never longer than the input. *)
Theorem convert_to_single_string_length (text : pystr) :
  List.length (convert_to_single_string text) <= List.length text.
Proof. exact (join_split_from_length text []). Qed.

Lemma flat_map_split_truthy (parts : list pystr) :
  flat_map split (filter truthy parts) = flat_map split parts.
Proof.
  induction parts as [|w rest IH]; [reflexivity|].
  simpl. destruct w as [|c w]; simpl; now rewrite IH.
Qed.

(** X5. After normalization it makes no difference whether empty
    segments were kept (as for the pages of a PDF) or dropped (as for
    the paragraphs of a DOCX) before the join. *)
Theorem empty_segments_vanish (parts : list pystr) :
  convert_to_single_string (join [SP] parts)
  = convert_to_single_string (join [SP] (filter truthy parts)).
Proof.
  unfold convert_to_single_string.
  now rewrite !split_join, flat_map_split_truthy.
Qed.

(* ================================================================= *)
(** * Further properties of the key normalization *)

Lemma sub_boundaries_length (t : pystr) :
  List.length (sub_boundaries false t)
  = List.length t + List.length (filter is_AZ t).
Proof.
  induction t as [|c t IH]; [reflexivity|].
  simpl. destruct (is_AZ c); simpl; rewrite IH; lia.
Qed.

Lemma no_AZ_snake_key (k : pystr) : no_AZ (snake_key k) = true.
Proof. apply lower_fixed_no_AZ, lower_snake_key. Qed.

(** X6. A transformed key has no letter of [A-Z] left and is its own
    lower-casing, and transforming it again changes nothing. The
    substitution adds one underscore for each letter of [A-Z] after the
    first character, so that the transformed key, which lower-casing
    does not shorten, has at least that many characters more than the
    key. *)
Theorem snake_key_shape (k : pystr) :
  no_AZ (snake_key k) = true
  /\ lower (snake_key k) = snake_key k
  /\ snake_key (snake_key k) = snake_key k
  /\ List.length (sub_boundaries true k)
     = List.length k + List.length (filter is_AZ (tl k))
  /\ List.length k + List.length (filter is_AZ (tl k))
     <= List.length (snake_key k).
Proof.
  split; [apply no_AZ_snake_key|].
  split; [apply lower_snake_key|].
  split; [apply snake_key_idempotent|].
  assert (H : List.length (sub_boundaries true k)
              = List.length k + List.length (filter is_AZ (tl k))).
  { destruct k as [|c t]; [reflexivity|].
    simpl. now rewrite sub_boundaries_length. }
  split; [exact H|].
  unfold snake_key, lower. rewrite length_map, H. apply Nat.le_refl.
Qed.

Section MoreComprehensions.

Variable I : Interpreter.
Variable conv : pyvalue -> result pyvalue.

Lemma dict_comprehension_ok_items (its acc : list (pyvalue * pyvalue))
      (y : pyvalue) :
  dict_comprehension I conv its acc = Ok y ->
  Forall (fun kv => exists k, fst kv = PyStr k) its
  /\ Forall (fun kv => exists x, conv (snd kv) = Ok x) its.
Proof.
  revert acc. induction its as [|[k v] rest IH]; intros acc H.
  - split; constructor.
  - destruct k; try discriminate.
    rewrite dict_comprehension_str in H.
    destruct (conv v) as [cv|e] eqn:Hv; [|discriminate].
    destruct (IH _ H) as [Hk Hc].
    split; constructor; trivial; simpl; eauto.
Qed.

Lemma dict_set_keys (d : list (pyvalue * pyvalue)) (k : pystr) (v x : pyvalue) :
  In x (map fst (dict_set d k v)) <-> In x (map fst d) \/ x = PyStr k.
Proof.
  split; [apply dict_set_keys_in|].
  induction d as [|[k0 v0] r IH]; simpl.
  - intros [[] | ->]. now left.
  - destruct (key_is k0 k) eqn:Hk; simpl.
    + apply key_is_true in Hk. subst k0.
      intros [[H | H] | H]; auto.
    + intros [[H | H] | H]; auto.
Qed.

Lemma dict_set_length (d : list (pyvalue * pyvalue)) (k : pystr) (v : pyvalue) :
  List.length (dict_set d k v) <= S (List.length d).
Proof.
  induction d as [|[k0 v0] r IH]; simpl; [lia|].
  destruct (key_is k0 k); simpl; lia.
Qed.

Lemma dict_comprehension_keys (its acc out : list (pyvalue * pyvalue)) :
  dict_comprehension I conv its acc = Ok (PyDict out) ->
  (forall x, In x (map fst out)
             <-> In x (map fst acc) \/ In x (normalized_keys its))
  /\ List.length out <= List.length acc + List.length its.
Proof.
  revert acc. induction its as [|[k v] rest IH]; intros acc H.
  - injection H as <-. split; [|simpl; lia].
    intros x. simpl. tauto.
  - destruct k; try discriminate.
    rewrite dict_comprehension_str in H.
    destruct (conv v) as [cv|e] eqn:Hv; [|discriminate].
    destruct (IH _ H) as [Hkeys Hlen]. split.
    + intros x. rewrite Hkeys, dict_set_keys. simpl. intuition auto.
    + pose proof (dict_set_length acc (snake_key s) cv). simpl. lia.
Qed.

Lemma dict_comprehension_in_order (its acc out : list (pyvalue * pyvalue)) :
  dict_comprehension I conv its acc = Ok (PyDict out) ->
  NoDup (map fst acc ++ normalized_keys its) ->
  exists tail,
    out = acc ++ tail
    /\ Forall2 (fun kv kv' =>
                  exists k, fst kv = PyStr k
                            /\ fst kv' = PyStr (snake_key k)
                            /\ conv (snd kv) = Ok (snd kv')) its tail.
Proof.
  revert acc. induction its as [|[k v] rest IH]; intros acc H Hnd.
  - injection H as <-. exists []. rewrite app_nil_r. split; constructor.
  - destruct k; try discriminate.
    rewrite dict_comprehension_str in H.
    destruct (conv v) as [cv|e] eqn:Hv; [|discriminate].
    simpl in Hnd.
    assert (Hfresh : ~ In (PyStr (snake_key s)) (map fst acc)).
    { apply NoDup_remove_2 in Hnd. intros Hin. apply Hnd.
      apply in_or_app. now left. }
    rewrite (dict_set_fresh _ _ _ Hfresh) in H.
    destruct (IH _ H) as (tail & -> & Htail).
    + rewrite map_app. simpl. now rewrite <- app_assoc.
    + exists ((PyStr (snake_key s), cv) :: tail).
      rewrite <- app_assoc. split; [reflexivity|].
      constructor; [|assumption]. exists s. auto.
Qed.

End MoreComprehensions.

Lemma convert_ok_str_keyed (I : Interpreter) (depth : nat)
      (obj cleaned : pyvalue) :
  convert_to_snake_case I depth obj = Ok cleaned -> str_keyed obj.
Proof.
  revert depth cleaned.
  induction obj as [v Hv | items IH | items IH] using pyvalue_walk_ind;
    intros depth cleaned H.
  - now apply str_keyed_other.
  - rewrite convert_list in H.
    apply list_comprehension_ok in H as (ys & _ & Hys).
    apply str_keyed_list.
    induction Hys as [|x x' its ys Hx _ IHys]; [constructor|].
    inversion IH; subst. constructor; [|auto].
    apply nested_call_ok in Hx as (room & _ & Hx). eauto.
  - rewrite convert_dict in H.
    apply dict_comprehension_ok_items in H as [Hk Hc].
    apply str_keyed_dict; [assumption|].
    rewrite Forall_forall in *. intros x Hx.
    destruct (Hc x Hx) as [y Hy].
    apply nested_call_ok in Hy as (room & _ & Hy).
    exact (IH x Hx room y Hy).
Qed.

(** X7. The transformation returns a value when every key the walk
    reaches is a string and the recursion limit leaves room for the
    nesting of the value; it returns one only if every key the walk
    reaches is a string; and when it raises, the exception is the
    [TypeError] that [re.sub] raises on a key that is not a string, or
    the [RecursionError] of a call nested too deep. *)
Theorem convert_to_snake_case_succeeds (I : Interpreter) (depth : nat)
        (obj : pyvalue) :
  (str_keyed obj -> nesting obj <= depth ->
   exists cleaned, convert_to_snake_case I depth obj = Ok cleaned)
  /\ (forall cleaned, convert_to_snake_case I depth obj = Ok cleaned ->
                      str_keyed obj)
  /\ (forall e, convert_to_snake_case I depth obj = Raise e ->
                (exists k, (forall s, k <> PyStr s)
                           /\ e = re_sub_type_error I k)
                \/ e = recursion_error I).
Proof.
  split; [apply convert_within|].
  split; [apply convert_ok_str_keyed | apply convert_raises].
Qed.

Lemma convert_to_snake_case_succeeds_witness :
  (exists cleaned,
     convert_to_snake_case Samples.sample_interpreter 490
       (PyList [PyDict [(PyStr (py "aB"), PyNone)]])
     = Ok cleaned)
  /\ str_keyed (PyList [PyDict [(PyStr (py "aB"), PyNone)]])
  /\ ((exists k, (forall s, k <> PyStr s)
                 /\ re_sub_type_error Samples.sample_interpreter (PyInt 1)
                    = re_sub_type_error Samples.sample_interpreter k)
      \/ re_sub_type_error Samples.sample_interpreter (PyInt 1)
         = recursion_error Samples.sample_interpreter).
Proof.
  split; [|split].
  - apply (proj1 (convert_to_snake_case_succeeds Samples.sample_interpreter
                    490 (PyList [PyDict [(PyStr (py "aB"), PyNone)]]))).
    + apply str_keyed_list. apply Forall_cons; [|apply Forall_nil].
      apply str_keyed_dict; (apply Forall_cons; [|apply Forall_nil]).
      * now exists (py "aB").
      * now apply str_keyed_other.
    + vm_compute. lia.
  - apply (proj1 (proj2 (convert_to_snake_case_succeeds
                           Samples.sample_interpreter 490
                           (PyList [PyDict [(PyStr (py "aB"), PyNone)]])))
                 (PyList [PyDict [(PyStr (py "a_b"), PyNone)]])).
    reflexivity.
  - apply (proj2 (proj2 (convert_to_snake_case_succeeds
                           Samples.sample_interpreter 490
                           (PyDict [(PyInt 1, PyInt 2)])))).
    reflexivity.
Defined.

(** X8. The keys of a transformed dict are exactly the normalized keys of
    the original: none is lost and none is invented, and the result has
    at most as many items as the original. *)
Theorem convert_to_snake_case_keys (I : Interpreter) (depth : nat)
        (items out : list (pyvalue * pyvalue)) :
  convert_to_snake_case I depth (PyDict items) = Ok (PyDict out) ->
  (forall k, In k (map fst out) <-> In k (normalized_keys items))
  /\ List.length out <= List.length items.
Proof.
  rewrite convert_dict. intros H.
  destruct (dict_comprehension_keys _ _ _ _ _ H) as [Hkeys Hlen].
  split; [|exact Hlen].
  intros k. rewrite Hkeys. simpl. tauto.
Qed.

Lemma convert_to_snake_case_keys_witness :
  (forall k,
     In k (map fst [(PyStr (py "a_b"), PyInt 2)])
     <-> In k (normalized_keys
                 [(PyStr (py "aB"), PyInt 1); (PyStr (py "a_b"), PyInt 2)]))
  /\ 1 <= 2.
Proof.
  exact (convert_to_snake_case_keys Samples.sample_interpreter 490
           [(PyStr (py "aB"), PyInt 1); (PyStr (py "a_b"), PyInt 2)]
           [(PyStr (py "a_b"), PyInt 2)] eq_refl).
Defined.

(** A list is transformed element by element: the result is a list
    of the same length whose elements are the transformed elements, in
    order. *)
Theorem convert_to_snake_case_list (I : Interpreter) (depth : nat)
        (items : list pyvalue) (cleaned : pyvalue) :
  convert_to_snake_case I depth (PyList items) = Ok cleaned ->
  exists ys,
    cleaned = PyList ys
    /\ Forall2 (fun x y => nested_call I depth x = Ok y) items ys.
Proof.
  rewrite convert_list. intros H.
  apply list_comprehension_ok in H as (ys & -> & Hys). now exists ys.
Qed.

Lemma convert_to_snake_case_list_witness :
  exists ys,
    PyList [PyDict [(PyStr (py "a_b"), PyNone)]; PyInt 3] = PyList ys
    /\ Forall2 (fun x y => nested_call Samples.sample_interpreter 490 x = Ok y)
               [PyDict [(PyStr (py "aB"), PyNone)]; PyInt 3] ys.
Proof.
  exact (convert_to_snake_case_list Samples.sample_interpreter 490
           [PyDict [(PyStr (py "aB"), PyNone)]; PyInt 3] _ eq_refl).
Defined.

(** X9. When no two keys of a dict normalize to the same key, the
    transformed dict has the items of the original one for one and in
    the same order: each key normalized, each value transformed. *)
Theorem convert_to_snake_case_in_order (I : Interpreter) (depth : nat)
        (items out : list (pyvalue * pyvalue)) :
  convert_to_snake_case I depth (PyDict items) = Ok (PyDict out) ->
  NoDup (normalized_keys items) ->
  Forall2 (fun kv kv' =>
             exists k, fst kv = PyStr k
                       /\ fst kv' = PyStr (snake_key k)
                       /\ nested_call I depth (snd kv) = Ok (snd kv'))
          items out.
Proof.
  rewrite convert_dict. intros H Hnd.
  destruct (dict_comprehension_in_order _ _ _ _ _ H Hnd) as (tail & -> & Ht).
  exact Ht.
Qed.

Lemma convert_to_snake_case_in_order_witness :
  Forall2 (fun kv kv' =>
             exists k, fst kv = PyStr k
                       /\ fst kv' = PyStr (snake_key k)
                       /\ nested_call Samples.sample_interpreter 490 (snd kv)
                          = Ok (snd kv'))
          [(PyStr (py "scoreOutOfTen"), PyInt 7); (PyStr (py "name"), PyNone)]
          [(PyStr (py "score_out_of_ten"), PyInt 7); (PyStr (py "name"), PyNone)].
Proof.
  apply (convert_to_snake_case_in_order Samples.sample_interpreter 490);
    [reflexivity|].
  repeat constructor; simpl; intuition discriminate.
Defined.

(* ================================================================= *)
(** * Further properties of de-fencing *)

Lemma lstrip_fixed (t : pystr) : leading_space t = false -> lstrip t = t.
Proof. destruct t as [|c t]; [reflexivity|]. simpl. now intros ->. Qed.

Lemma leading_space_lstrip (s : pystr) : leading_space (lstrip s) = false.
Proof.
  induction s as [|c t IH]; [reflexivity|].
  simpl. destruct (isspace c) eqn:E; [assumption|]. simpl. exact E.
Qed.

Lemma lstrip_suffix (s : pystr) : exists g, s = g ++ lstrip s.
Proof.
  induction s as [|c t [g IH]]; [now exists []|].
  simpl. destruct (isspace c).
  - exists (c :: g). simpl. now rewrite <- IH.
  - now exists [].
Qed.

Lemma rstrip_prefix (t : pystr) : exists g, t = rstrip t ++ g.
Proof.
  unfold rstrip. destruct (lstrip_suffix (rev t)) as [g Hg].
  exists (rev g). apply (f_equal (@rev ascii)) in Hg.
  rewrite rev_involutive, rev_app_distr in Hg. exact Hg.
Qed.

Lemma strip_ends (s : pystr) :
  leading_space (strip s) = false /\ trailing_space (strip s) = false.
Proof.
  unfold strip. split.
  - pose proof (leading_space_lstrip s) as Hl.
    destruct (rstrip_prefix (lstrip s)) as [g Hg].
    destruct (rstrip (lstrip s)) as [|c r]; [reflexivity|].
    rewrite Hg in Hl. exact Hl.
  - unfold trailing_space, rstrip. rewrite rev_involutive.
    apply leading_space_lstrip.
Qed.

Lemma strip_fixed (t : pystr) :
  leading_space t = false -> trailing_space t = false -> strip t = t.
Proof.
  intros Hl Ht. unfold strip, rstrip. rewrite (lstrip_fixed _ Hl).
  unfold trailing_space in Ht. rewrite (lstrip_fixed _ Ht).
  apply rev_involutive.
Qed.

Lemma strip_idempotent (s : pystr) : strip (strip s) = strip s.
Proof. destruct (strip_ends s). now apply strip_fixed. Qed.

Lemma fenced_strip (s : pystr) : fenced (strip s) = fenced s.
Proof. unfold fenced. now rewrite strip_idempotent. Qed.

Lemma working_string_strip (s : pystr) :
  fenced s = true -> working_string (strip s) = working_string s.
Proof.
  intros H. unfold working_string.
  now rewrite fenced_strip, H, strip_idempotent.
Qed.

(** X10. White space around a fenced answer is ignored: the input and
    the stripped input are fenced alike, and for a fenced input they
    have the same working string and the same result, after the same
    number of attempts. *)
Theorem fenced_input_ignores_outer_space (P : Parsers) (json_string : pystr) :
  fenced (strip json_string) = fenced json_string
  /\ (fenced json_string = true ->
      working_string (strip json_string) = working_string json_string
      /\ clean_json_string P (strip json_string)
         = clean_json_string P json_string
      /\ attempts_tried P (strip json_string)
         = attempts_tried P json_string).
Proof.
  split; [apply fenced_strip|].
  intros H. unfold clean_json_string, attempts_tried, clean_json_string_run.
  now rewrite (working_string_strip _ H).
Qed.

Lemma fenced_input_ignores_outer_space_witness :
  working_string (strip (SP :: Samples.fenced_text ++ [NL]))
  = working_string (SP :: Samples.fenced_text ++ [NL])
  /\ clean_json_string Samples.parsers
       (strip (SP :: Samples.fenced_text ++ [NL]))
     = clean_json_string Samples.parsers (SP :: Samples.fenced_text ++ [NL])
  /\ attempts_tried Samples.parsers
       (strip (SP :: Samples.fenced_text ++ [NL]))
     = attempts_tried Samples.parsers (SP :: Samples.fenced_text ++ [NL]).
Proof.
  apply (proj2 (fenced_input_ignores_outer_space Samples.parsers
                  (SP :: Samples.fenced_text ++ [NL]))).
  reflexivity.
Defined.

(** X11. When the stripped input starts and ends with the fence and
    holds no line feed, only the closing marker is removed: the working
    string is the stripped input without its last three characters, and
    it still starts with the opening marker when the stripped input has
    six characters or more. *)
Theorem single_line_fence_keeps_opening (json_string : pystr) :
  fenced json_string = true ->
  ~ In NL (strip json_string) ->
  strip json_string = working_string json_string ++ FENCE
  /\ (6 <= List.length (strip json_string) ->
      startswith FENCE (working_string json_string) = true).
Proof.
  intros Hf Hnl.
  destruct (working_string_fenced_single _ Hf Hnl) as (pre & Hpre & ->).
  split; [exact Hpre|]. intros Hlen.
  destruct (fenced_shape _ Hf) as (r & _ & Hr & _).
  rewrite Hpre in Hr, Hlen. rewrite length_app in Hlen. simpl in Hlen.
  destruct pre as [|a [|b [|c p]]]; simpl in Hlen; try lia.
  injection Hr as -> -> -> _. reflexivity.
Qed.

Lemma single_line_fence_keeps_opening_witness :
  strip (py " ```{}``` ") = working_string (py " ```{}``` ") ++ FENCE
  /\ startswith FENCE (working_string (py " ```{}``` ")) = true.
Proof.
  destruct (single_line_fence_keeps_opening (py " ```{}``` ")) as [H1 H2].
  - reflexivity.
  - vm_compute. intuition discriminate.
  - split; [exact H1|]. apply H2. vm_compute. lia.
Defined.

(** X12. The working string is never longer than the input, and it is
    shorter by at least the three characters of the closing marker when
    a fence was detected. *)
Theorem working_string_length (json_string : pystr) :
  List.length (working_string json_string) <= List.length json_string
  /\ (fenced json_string = true ->
      List.length (working_string json_string) + 3
      <= List.length json_string).
Proof.
  split; [|apply working_string_fenced_shorter].
  destruct (fenced json_string) eqn:Hf.
  - pose proof (working_string_fenced_shorter _ Hf). lia.
  - now rewrite (working_string_unfenced _ Hf).
Qed.

Lemma working_string_length_witness :
  List.length (working_string Samples.fenced_text) + 3
  <= List.length Samples.fenced_text.
Proof.
  apply (proj2 (working_string_length Samples.fenced_text)). reflexivity.
Defined.

(* ================================================================= *)
(** * Properties of the cleaning steps *)

Lemma pystr_pair_ind (Q : pystr -> Prop) :
  Q [] ->
  (forall c, Q [c]) ->
  (forall c1 c2 t, Q t -> Q (c2 :: t) -> Q (c1 :: c2 :: t)) ->
  forall s, Q s.
Proof.
  intros Hnil Hone Hstep s.
  assert (H : Q s /\ forall c, Q (c :: s)).
  { induction s as [|c t [IH1 IH2]]; [now split|].
    split; [apply IH2|]. intros c0. apply Hstep; [assumption|apply IH2]. }
  apply H.
Qed.

Lemma sub_escape_pair (second : ascii -> bool) (new : pystr)
      (c1 c2 : ascii) (t : pystr) :
  sub_escape second new (c1 :: c2 :: t)
  = if Ascii.eqb c1 BSL && second c2 then new ++ sub_escape second new t
    else c1 :: sub_escape second new (c2 :: t).
Proof. reflexivity. Qed.

Lemma has_escape_pair (second : ascii -> bool) (c1 c2 : ascii) (t : pystr) :
  has_escape second (c1 :: c2 :: t)
  = (Ascii.eqb c1 BSL && second c2) || has_escape second (c2 :: t).
Proof. reflexivity. Qed.

Lemma sub_escape_fixed (second : ascii -> bool) (new s : pystr) :
  has_escape second s = false -> sub_escape second new s = s.
Proof.
  induction s as [|c1 [|c2 t] IH]; intros H; try reflexivity.
  rewrite has_escape_pair in H. apply orb_false_iff in H as [Hc Ht].
  rewrite sub_escape_pair, Hc. now rewrite (IH Ht).
Qed.

Lemma no_backslash_no_escape (second : ascii -> bool) (s : pystr) :
  ~ In BSL s -> has_escape second s = false.
Proof.
  induction s as [|c1 [|c2 t] IH]; intros H; try reflexivity.
  rewrite has_escape_pair.
  assert (Hc : Ascii.eqb c1 BSL = false).
  { apply Ascii.eqb_neq. intros ->. apply H. now left. }
  rewrite Hc. simpl. apply IH. intros Hin. apply H. now right.
Qed.

Lemma sub_escaped_newlines_fixed (s : pystr) :
  ~ In BSL s -> sub_escaped_newlines false s = s.
Proof.
  induction s as [|c1 t IH]; intros H; [reflexivity|].
  assert (Hc : Ascii.eqb c1 BSL = false).
  { apply Ascii.eqb_neq. intros ->. apply H. now left. }
  assert (Ht : sub_escaped_newlines false t = t).
  { apply IH. intros Hin. apply H. now right. }
  destruct t as [|c2 t2]; [reflexivity|].
  change (sub_escaped_newlines false (c1 :: c2 :: t2))
    with (if Ascii.eqb c1 BSL && Ascii.eqb c2 (chr 110)
          then sub_escaped_newlines true t2
          else c1 :: sub_escaped_newlines false (c2 :: t2)).
  now rewrite Hc, Ht.
Qed.

Lemma aggressive_cleaning_class (s : pystr) :
  aggressive_cleaning s = sub_escape escape_class [SP] s.
Proof. reflexivity. Qed.

(** X13. On a text without backslash the three cleaning steps of the
    parsing attempts change nothing. *)
Theorem cleaning_without_backslash (s : pystr) :
  ~ In BSL s ->
  sub_escaped_newlines false s = s
  /\ replace_escapes s = s
  /\ aggressive_cleaning s = s.
Proof.
  intros H. split; [now apply sub_escaped_newlines_fixed|].
  unfold replace_escapes, aggressive_cleaning.
  rewrite !sub_escape_fixed; auto using no_backslash_no_escape.
  rewrite sub_escape_fixed; auto using no_backslash_no_escape.
Qed.

Lemma cleaning_without_backslash_witness :
  sub_escaped_newlines false Samples.jane_text = Samples.jane_text
  /\ replace_escapes Samples.jane_text = Samples.jane_text
  /\ aggressive_cleaning Samples.jane_text = Samples.jane_text.
Proof.
  apply cleaning_without_backslash. vm_compute. intuition discriminate.
Defined.

Lemma sub_escape_head (second : ascii -> bool) (c : ascii) (t : pystr) :
  exists y, sub_escape second [SP] (c :: t) = c :: y
            \/ sub_escape second [SP] (c :: t) = SP :: y.
Proof.
  destruct t as [|c2 t2]; [exists []; now left|].
  rewrite sub_escape_pair. destruct (Ascii.eqb c BSL && second c2);
    eexists; [right | left]; reflexivity.
Qed.

Lemma has_escape_head (second : ascii -> bool) (c y : ascii) (t : pystr) :
  Ascii.eqb c BSL && second y = false ->
  has_escape second (y :: t) = false ->
  has_escape second (c :: y :: t) = false.
Proof. intros Hc Ht. now rewrite has_escape_pair, Hc, Ht. Qed.

Lemma sub_escape_leaves_none (second : ascii -> bool) (s : pystr) :
  second SP = false ->
  has_escape second (sub_escape second [SP] s) = false.
Proof.
  intros Hsp. induction s as [| c | c1 c2 t IHt IHc] using pystr_pair_ind;
    try reflexivity.
  rewrite sub_escape_pair.
  destruct (Ascii.eqb c1 BSL && second c2) eqn:Hm.
  - change ([SP] ++ sub_escape second [SP] t)
      with (SP :: sub_escape second [SP] t).
    destruct (sub_escape second [SP] t) as [|y r] eqn:E; [reflexivity|].
    apply has_escape_head; [|assumption].
    reflexivity.
  - destruct (sub_escape_head second c2 t) as [y [E | E]];
      rewrite E in *; apply has_escape_head; trivial.
    now rewrite Hsp, andb_false_r.
Qed.

(** X14. The aggressive cleaning leaves no backslash followed by a
    character of its class, so that cleaning twice is cleaning once. *)
Theorem aggressive_cleaning_idempotent (s : pystr) :
  has_escape escape_class (aggressive_cleaning s) = false
  /\ aggressive_cleaning (aggressive_cleaning s) = aggressive_cleaning s.
Proof.
  assert (H : has_escape escape_class (aggressive_cleaning s) = false).
  { rewrite aggressive_cleaning_class. now apply sub_escape_leaves_none. }
  split; [exact H|].
  rewrite (aggressive_cleaning_class (aggressive_cleaning s)).
  now apply sub_escape_fixed.
Qed.

Lemma sub_escape_length (second : ascii -> bool) (x : ascii) (s : pystr) :
  List.length (sub_escape second [x] s) <= List.length s.
Proof.
  induction s as [| c | c1 c2 t IHt IHc] using pystr_pair_ind;
    try (simpl; lia).
  rewrite sub_escape_pair. destruct (Ascii.eqb c1 BSL && second c2);
    simpl in *; lia.
Qed.

Lemma sub_escaped_newlines_length (s : pystr) (skipping : bool) :
  List.length (sub_escaped_newlines skipping s) <= List.length s.
Proof.
  revert skipping.
  induction s as [| c | c1 c2 t IHt IHc] using pystr_pair_ind;
    intros skipping.
  - simpl. lia.
  - simpl. destruct (skipping && isspace c); simpl; lia.
  - change (sub_escaped_newlines skipping (c1 :: c2 :: t))
      with (if skipping && isspace c1
            then sub_escaped_newlines true (c2 :: t)
            else if Ascii.eqb c1 BSL && Ascii.eqb c2 (chr 110)
                 then sub_escaped_newlines true t
                 else c1 :: sub_escaped_newlines false (c2 :: t)).
    pose proof (IHc true). pose proof (IHc false). pose proof (IHt true).
    destruct (skipping && isspace c1);
      [|destruct (Ascii.eqb c1 BSL && Ascii.eqb c2 (chr 110))];
      simpl in *; lia.
Qed.

(** None of the three cleaning steps makes the text longer. *)
Theorem cleaning_never_lengthens (s : pystr) :
  List.length (sub_escaped_newlines false s) <= List.length s
  /\ List.length (replace_escapes s) <= List.length s
  /\ List.length (aggressive_cleaning s) <= List.length s.
Proof.
  split; [apply sub_escaped_newlines_length|].
  split; [|apply sub_escape_length].
  unfold replace_escapes.
  etransitivity; apply sub_escape_length.
Qed.

(* ================================================================= *)
(** * Further properties of [clean_json_string] *)

Lemma try_attempts_raise (P : Parsers)
      (attempts : list (pystr -> result pyvalue))
      (w : pystr) (tried : nat) (e : exn) :
  snd (try_attempts P attempts w tried) = Raise e -> is_parse_error e = false.
Proof.
  revert tried. induction attempts as [|attempt rest IH]; intros tried;
    [discriminate|].
  simpl. destruct (parsed_json <- attempt w;; convert_parsed P parsed_json)
    as [c|e0]; [discriminate|].
  destruct (is_parse_error e0) eqn:Hc; [apply IH|].
  simpl. intros H. injection H as <-. exact Hc.
Qed.

Lemma try_attempts_count (P : Parsers)
      (attempts : list (pystr -> result pyvalue))
      (w : pystr) (tried : nat) :
  tried + min 1 (List.length attempts) <= fst (try_attempts P attempts w tried)
  /\ fst (try_attempts P attempts w tried) <= tried + List.length attempts.
Proof.
  revert tried. induction attempts as [|attempt rest IH]; intros tried;
    [simpl; lia|].
  simpl. destruct (parsed_json <- attempt w;; convert_parsed P parsed_json)
    as [c|e0]; [simpl; lia|].
  destruct (is_parse_error e0); [|simpl; lia].
  specialize (IH (S tried)). lia.
Qed.

Lemma failure_record_normalized (w : pystr) :
  lower_cased (failure_record w) /\ distinct_keys (failure_record w).
Proof.
  split.
  - apply lower_cased_dict.
    + repeat constructor; eexists; split; reflexivity.
    + repeat constructor.
  - apply distinct_keys_dict.
    + repeat constructor; simpl; intuition discriminate.
    + repeat constructor.
Qed.

Lemma try_attempts_ok (P : Parsers)
      (attempts : list (pystr -> result pyvalue))
      (w : pystr) (tried : nat) (y : pyvalue) :
  snd (try_attempts P attempts w tried) = Ok y ->
  y = failure_record w
  \/ exists parsed, convert_parsed P parsed = Ok y.
Proof.
  revert tried. induction attempts as [|attempt rest IH]; intros tried.
  - simpl. intros H. injection H as <-. now left.
  - simpl. destruct (attempt w) as [parsed|e0] eqn:Ha; simpl.
    + destruct (convert_parsed P parsed) as [c|e1] eqn:Hc.
      * simpl. intros H. injection H as <-. right. now exists parsed.
      * destruct (is_parse_error e1); [apply IH | discriminate].
    + destruct (is_parse_error e0); [apply IH | discriminate].
Qed.

(** X15. [clean_json_string] never lets a [JSONDecodeError] or a
    [SyntaxError] out, and it calls at least one and at most five
    attempts. *)
Theorem clean_json_string_contains_parse_errors (P : Parsers)
        (json_string : pystr) :
  (forall e, clean_json_string P json_string = Raise e ->
             is_parse_error e = false)
  /\ 1 <= attempts_tried P json_string <= 5.
Proof.
  split.
  - intros e. apply try_attempts_raise.
  - unfold attempts_tried, clean_json_string_run.
    pose proof (try_attempts_count P (parsing_attempts P)
                  (working_string json_string) 0) as H.
    change (List.length (parsing_attempts P)) with 5 in H.
    change (min 1 5) with 1 in H. lia.
Qed.

Lemma clean_json_string_contains_parse_errors_witness :
  is_parse_error (PyExc ValueError (py "malformed node or string")) = false.
Proof.
  apply (proj1 (clean_json_string_contains_parse_errors
                  Samples.parsers (py "foo"))).
  reflexivity.
Defined.

(** X16. The first attempt that succeeds decides: when the attempts
    before one of the five fail with an exception that is caught, and
    that one returns a value the key transformation accepts, the
    transformed value is returned and no later attempt is called. *)
Theorem first_success_wins (P : Parsers) (json_string : pystr)
        (front back : list (pystr -> result pyvalue))
        (attempt : pystr -> result pyvalue) (parsed cleaned : pyvalue) :
  parsing_attempts P = front ++ attempt :: back ->
  Forall (fun a => attempt_fails a (working_string json_string)) front ->
  attempt (working_string json_string) = Ok parsed ->
  convert_parsed P parsed = Ok cleaned ->
  clean_json_string P json_string = Ok cleaned
  /\ attempts_tried P json_string = S (List.length front).
Proof.
  intros Hs Hf Hp Hc.
  unfold clean_json_string, attempts_tried, clean_json_string_run.
  rewrite Hs, (try_attempts_first_success _ _ _ _ _ _ _ _ Hf Hp Hc).
  split; reflexivity.
Qed.

Lemma first_success_wins_witness :
  clean_json_string Samples.parsers (py "{\n }") = Ok (PyDict [])
  /\ attempts_tried Samples.parsers (py "{\n }") = 2.
Proof.
  apply (first_success_wins Samples.parsers (py "{\n }")
           [fun s => json_loads Samples.parsers s]
           [fun s => json_loads Samples.parsers (replace_escapes s);
            fun s => json_loads Samples.parsers (aggressive_cleaning s);
            fun s => literal_eval Samples.parsers s]
           (fun s => json_loads Samples.parsers (sub_escaped_newlines false s))
           (PyDict [])).
  - reflexivity.
  - repeat constructor. eexists. split; reflexivity.
  - reflexivity.
  - reflexivity.
Defined.

(** X17. In whatever [clean_json_string] returns, a cleaned value or
    the failure record, every key the walk reaches is a string that
    [str.lower] leaves as it is, and is once in its dict; and the key
    transformation, given room for the nesting of the value, leaves the
    value unchanged. (The keys need not be in snake_case: a key with a
    space or a punctuation mark is kept, and the keys of a dict inside a
    tuple or a set are not looked at.) *)
Theorem clean_json_string_returns_normalized (P : Parsers)
        (json_string : pystr) (returned : pyvalue) :
  clean_json_string P json_string = Ok returned ->
  lower_cased returned
  /\ distinct_keys returned
  /\ forall I depth, nesting returned <= depth ->
                     convert_to_snake_case I depth returned = Ok returned.
Proof.
  intros H. apply try_attempts_ok in H.
  assert (Hn : lower_cased returned /\ distinct_keys returned).
  { destruct H as [-> | [parsed Hp]]; [apply failure_record_normalized|].
    destruct (convert_output _ _ _ _ Hp) as (? & ? & ?). now split. }
  destruct Hn as [Hs Hd]. repeat split; trivial.
  intros I depth Hdepth. now apply convert_fixed.
Qed.

Lemma clean_json_string_returns_normalized_witness :
  lower_cased (failure_record (py "not json at all" ++ [NL]))
  /\ distinct_keys (failure_record (py "not json at all" ++ [NL]))
  /\ forall I depth,
       nesting (failure_record (py "not json at all" ++ [NL])) <= depth ->
       convert_to_snake_case I depth
         (failure_record (py "not json at all" ++ [NL]))
       = Ok (failure_record (py "not json at all" ++ [NL])).
Proof.
  apply (clean_json_string_returns_normalized Samples.parsers
           Samples.fenced_text).
  reflexivity.
Defined.

(** X18. On a working string without backslash the four JSON attempts
    parse the same text: when [json.loads] rejects it, all five attempts
    are called and the outcome is that of [ast.literal_eval] alone. *)
Theorem backslash_free_outcome (P : Parsers) (json_string : pystr) (e : exn) :
  ~ In BSL (working_string json_string) ->
  json_loads P (working_string json_string) = Raise e ->
  is_parse_error e = true ->
  clean_json_string P json_string
  = attempt_outcome P (literal_eval P) (working_string json_string)
  /\ attempts_tried P json_string = 5.
Proof.
  intros Hb He Hc.
  assert (Hf : json_attempts_fail P (working_string json_string)).
  { unfold json_attempts_fail, json_attempts. simpl.
    repeat constructor; exists e; split; trivial.
    - now rewrite (sub_escaped_newlines_fixed _ Hb).
    - unfold replace_escapes.
      rewrite !sub_escape_fixed; auto using no_backslash_no_escape.
      rewrite sub_escape_fixed; auto using no_backslash_no_escape.
    - unfold aggressive_cleaning.
      rewrite sub_escape_fixed; auto using no_backslash_no_escape. }
  unfold clean_json_string, attempts_tried, clean_json_string_run.
  rewrite parsing_attempts_split, (try_attempts_app_fail _ _ _ _ _ Hf).
  unfold attempt_outcome. simpl.
  destruct (parsed_json <- literal_eval P (working_string json_string);;
            convert_parsed P parsed_json) as [c|e0];
    [split; reflexivity|].
  destruct (is_parse_error e0); split; reflexivity.
Qed.

Lemma backslash_free_outcome_witness :
  clean_json_string Samples.parsers (py "foo")
  = attempt_outcome Samples.parsers (literal_eval Samples.parsers) (py "foo")
  /\ attempts_tried Samples.parsers (py "foo") = 5.
Proof.
  apply (backslash_free_outcome Samples.parsers (py "foo")
           (PyExc JSONDecodeError (py "Expecting value"))).
  - vm_compute. intuition discriminate.
  - reflexivity.
  - reflexivity.
Defined.

(* ================================================================= *)
(** * Further properties of the extraction *)

Section MoreExtraction.

Variable R : Readers.

Lemma txt_is_not_pdf (name : pystr) :
  endswith (py ".txt") name = true -> endswith (py ".pdf") name = false.
Proof.
  unfold endswith. destruct (rev name) as [|c r]; [discriminate|].
  intros H. change (rev (py ".txt")) with ("t"%char :: py "xt.") in H.
  change (rev (py ".pdf")) with ("f"%char :: py "dp.").
  rewrite startswith_cons in *.
  apply andb_true_iff in H as [E _].
  apply Ascii.eqb_eq in E. now subst c.
Qed.

Lemma txt_is_not_docx (name : pystr) :
  endswith (py ".txt") name = true -> endswith (py ".docx") name = false.
Proof.
  unfold endswith. destruct (rev name) as [|c r]; [discriminate|].
  intros H. change (rev (py ".txt")) with ("t"%char :: py "xt.") in H.
  change (rev (py ".docx")) with ("x"%char :: py "cod.").
  rewrite startswith_cons in *.
  apply andb_true_iff in H as [E _].
  apply Ascii.eqb_eq in E. now subst c.
Qed.

Lemma extract_raise_shape (file : UploadFile) (e : exn) :
  extract_text_from_file R file = Raise e ->
  (exists d, e = HTTPException 500 (py "Error extracting text: " ++ d))
  \/ is_Exception e = false.
Proof.
  unfold extract_text_from_file.
  destruct (extract_text_body R file) as [text|e0]; [discriminate|].
  destruct (is_Exception e0) eqn:E; intros H; injection H as <-.
  - left. now eexists.
  - now right.
Qed.

End MoreExtraction.

(** X19. Whatever goes wrong inside [extract_text_from_file], what
    leaves it is an [HTTPException] with status 500 whose detail starts
    with the words [Error extracting text: ], unless the exception is
    not an [Exception] at all; in particular it never raises an
    [HTTPException] with another status. *)
Theorem extraction_errors_are_500 (R : Readers) (file : UploadFile) :
  (forall e, extract_text_from_file R file = Raise e ->
     (exists d, e = HTTPException 500 (py "Error extracting text: " ++ d))
     \/ is_Exception e = false)
  /\ (forall sc d, extract_text_from_file R file = Raise (HTTPException sc d) ->
                   sc = 500%Z).
Proof.
  split; [apply extract_raise_shape|].
  intros sc d H. apply extract_raise_shape in H as [[d0 E] | E];
    [now injection E | discriminate].
Qed.

Lemma extraction_errors_are_500_witness :
  (exists d,
     HTTPException 500
       (py "Error extracting text: 'NoneType' object has no attribute 'lower'")
     = HTTPException 500 (py "Error extracting text: " ++ d))
  \/ is_Exception
       (HTTPException 500
          (py "Error extracting text: 'NoneType' object has no attribute 'lower'"))
     = false.
Proof.
  apply (proj1 (extraction_errors_are_500 Samples.readers
                  {| filename := None; content := [] |})).
  reflexivity.
Defined.

(** X20. Text is returned only for a file that has a name, with one of
    the three extensions. *)
Theorem extraction_needs_supported_name (R : Readers) (file : UploadFile)
        (text : pystr) :
  extract_text_from_file R file = Ok text ->
  exists name, filename file = Some name /\ supported name = true.
Proof.
  unfold extract_text_from_file, extract_text_body, supported.
  destruct (filename file) as [name|]; [|discriminate].
  intros H. exists name. split; [reflexivity|].
  destruct (endswith (py ".pdf") (lower name)); [reflexivity|].
  destruct (endswith (py ".docx") (lower name)); [reflexivity|].
  destruct (endswith (py ".txt") (lower name)); [reflexivity|].
  discriminate.
Qed.

Lemma extraction_needs_supported_name_witness :
  exists name,
    filename (Samples.upload "cv.docx") = Some name /\ supported name = true.
Proof.
  apply (extraction_needs_supported_name Samples.readers
           (Samples.upload "cv.docx") (py "Hello World")).
  reflexivity.
Defined.

(** X21. The extension is matched without regard to case, and nothing
    else of the name matters: two names with the same lower-case form
    give the same result on the same bytes. *)
Theorem extraction_ignores_case (R : Readers) (file : UploadFile)
        (name name' : pystr) :
  filename file = Some name ->
  lower name' = lower name ->
  extract_text_from_file R (renamed file name')
  = extract_text_from_file R file.
Proof.
  intros Hn Hl. unfold extract_text_from_file, extract_text_body.
  simpl. now rewrite Hn, Hl.
Qed.

Lemma extraction_ignores_case_witness :
  extract_text_from_file Samples.readers
    (renamed (Samples.upload "cv.docx") (py "CV.DocX"))
  = extract_text_from_file Samples.readers (Samples.upload "cv.docx").
Proof.
  apply (extraction_ignores_case Samples.readers (Samples.upload "cv.docx")
           (py "cv.docx") (py "CV.DocX")); reflexivity.
Defined.

(** X22. For a name that ends in [.txt] the decoded text is returned as
    it is, and a failure of the decoding leaves as status 500 with the
    message of the decoder after the fixed words. *)
Theorem extraction_of_txt (R : Readers) (file : UploadFile) (name : pystr) :
  filename file = Some name ->
  endswith (py ".txt") (lower name) = true ->
  (forall text, decode_utf8 R (content file) = Ok text ->
                extract_text_from_file R file = Ok text)
  /\ (forall e, decode_utf8 R (content file) = Raise e ->
                is_Exception e = true ->
                extract_text_from_file R file
                = Raise (HTTPException 500
                           (py "Error extracting text: " ++ exn_str R e))).
Proof.
  intros Hn Ht. unfold extract_text_from_file, extract_text_body.
  rewrite Hn, (txt_is_not_pdf _ Ht), (txt_is_not_docx _ Ht), Ht.
  split.
  - now intros text ->.
  - now intros e -> ->.
Qed.

Lemma extraction_of_txt_witness :
  extract_text_from_file Samples.readers
    {| filename := Some (py "notes.TXT"); content := [Byte.x68; Byte.x69] |}
  = Ok (py "hi").
Proof.
  apply (proj1 (extraction_of_txt Samples.readers
                  {| filename := Some (py "notes.TXT");
                     content := [Byte.x68; Byte.x69] |}
                  (py "notes.TXT") eq_refl eq_refl)).
  reflexivity.
Defined.

(* ================================================================= *)
(** * Properties of [match_resume] *)

Lemma detail_body_normalized (d : pystr) :
  lower_cased (detail_body d) /\ distinct_keys (detail_body d).
Proof.
  split.
  - apply lower_cased_dict; repeat constructor.
    eexists; split; reflexivity.
  - apply distinct_keys_dict; repeat constructor. intros [].
Qed.

Lemma try_attempts_raise_source (P : Parsers)
      (attempts : list (pystr -> result pyvalue))
      (w : pystr) (tried : nat) (e : exn) :
  snd (try_attempts P attempts w tried) = Raise e ->
  (exists attempt, In attempt attempts /\ attempt w = Raise e)
  \/ (exists k, e = re_sub_type_error (interpreter P) k)
  \/ e = recursion_error (interpreter P).
Proof.
  revert tried. induction attempts as [|attempt rest IH]; intros tried;
    [discriminate|].
  simpl. destruct (attempt w) as [parsed|e0] eqn:Ha; simpl.
  - destruct (convert_parsed P parsed) as [c|e1] eqn:Hc;
      [discriminate|].
    rewrite (convert_parsed_uncaught _ _ _ Hc). simpl.
    intros H. injection H as <-. right.
    destruct (convert_raises _ _ _ _ Hc) as [(k & _ & Hk) | Hr];
      [left; now exists k | now right].
  - destruct (is_parse_error e0) eqn:Hp.
    + intros H. destruct (IH _ H) as [(a & Hin & Hr) | Hk]; [|now right].
      left. exists a. split; [now right | assumption].
    + simpl. intros H. injection H as <-.
      left. exists attempt. split; [now left | assumption].
Qed.

Lemma clean_json_string_no_http (P : Parsers) (json_string : pystr)
      (sc : Z) (d : pystr) :
  raises_no_http (json_loads P) -> raises_no_http (literal_eval P) ->
  clean_json_string P json_string <> Raise (HTTPException sc d).
Proof.
  intros Hj Hl H. apply try_attempts_raise_source in H
    as [(attempt & Hin & Hr) | [[k Hk] | Hk]]; try discriminate.
  simpl in Hin.
  repeat (destruct Hin as [<- | Hin]; [now (apply Hj in Hr || apply Hl in Hr)|]).
  contradiction.
Qed.

Lemma py_get_thrown (obj : pyvalue) (key : pystr) (default : pyvalue)
      (e : raised) :
  py_get obj key default = Thrown e ->
  e = Exn (no_attribute obj (py "get")).
Proof. destruct obj; simpl; intros H; now inversion H. Qed.

Lemma py_first_thrown (obj : pyvalue) (sc : Z) (d : pystr) :
  py_first obj <> Thrown (Exn (HTTPException sc d)).
Proof.
  destruct obj as [ | | | | [|] | [|] | [|] | [|] | | items];
    simpl; try discriminate.
  destruct (find _ items); discriminate.
Qed.

Lemma first_choice_content_no_http (response_json : pyvalue)
      (sc : Z) (d : pystr) :
  first_choice_content response_json <> Thrown (Exn (HTTPException sc d)).
Proof.
  unfold first_choice_content. intros H.
  destruct (py_get response_json _ _) as [choices|e] eqn:E1; simpl in H.
  - destruct (py_first choices) as [choice|e] eqn:E2; simpl in H.
    + destruct (py_get choice _ _) as [message|e] eqn:E3; simpl in H.
      * apply py_get_thrown in H. discriminate.
      * injection H as ->. apply py_get_thrown in E3. discriminate.
    + injection H as ->. now apply py_first_thrown in E2.
  - injection H as ->. apply py_get_thrown in E1. discriminate.
Qed.

Lemma clean_json_value_ok (P : Parsers) (match_result returned : pyvalue) :
  clean_json_value P match_result = Returned returned ->
  exists s, match_result = PyStr s /\ clean_json_string P s = Ok returned.
Proof.
  destruct match_result; simpl; try discriminate.
  destruct (clean_json_string P s) eqn:E; simpl; [|discriminate].
  intros H. injection H as <-. now exists s.
Qed.

Lemma clean_json_value_no_http (P : Parsers) (match_result : pyvalue)
      (sc : Z) (d : pystr) :
  raises_no_http (json_loads P) -> raises_no_http (literal_eval P) ->
  clean_json_value P match_result <> Thrown (Exn (HTTPException sc d)).
Proof.
  intros Hj Hl. destruct match_result; simpl; try discriminate.
  destruct (clean_json_string P s) eqn:E; simpl; [discriminate|].
  intros H. injection H as ->.
  now apply (clean_json_string_no_http P s sc d Hj Hl).
Qed.

(** The body of the [try], step by step. *)
Lemma match_resume_body_steps (R : Readers) (P : Parsers) (S : Service)
      (resume : UploadFile) (jd el : pystr) (o : outcome pyvalue) :
  match_resume_body R P S resume jd el = o ->
  (exists e, extract_text_from_file R resume = Raise e /\ o = Thrown (Exn e))
  \/ exists text,
       extract_text_from_file R resume = Ok text
       /\ ((exists e,
              post_chat_completions S
                (payload S (convert_to_single_string text) jd el) = Raise e
              /\ o = Thrown (Exn e))
           \/ exists response_json,
                post_chat_completions S
                  (payload S (convert_to_single_string text) jd el)
                = Ok response_json
                /\ ((exists e, first_choice_content response_json = Thrown e
                               /\ o = Thrown e)
                    \/ exists match_result,
                         first_choice_content response_json
                         = Returned match_result
                         /\ ((exists e, clean_json_value P match_result
                                        = Thrown e /\ o = Thrown e)
                             \/ exists result_json,
                                  clean_json_value P match_result
                                  = Returned result_json
                                  /\ ((exists e, render_json S result_json
                                                 = Raise e
                                                 /\ o = Thrown (Exn e))
                                      \/ (render_json S result_json = Ok tt
                                          /\ o = Returned result_json))))).
Proof.
  unfold match_resume_body. intros <-.
  destruct (extract_text_from_file R resume) as [text|e]; simpl;
    [right; exists text; split; [reflexivity|] | left; now exists e].
  destruct (post_chat_completions S _) as [response_json|e]; simpl;
    [right; exists response_json; split; [reflexivity|] | left; now exists e].
  destruct (first_choice_content response_json) as [match_result|e]; simpl;
    [right; exists match_result; split; [reflexivity|] | left; now exists e].
  destruct (clean_json_value P match_result) as [result_json|e]; simpl;
    [right; exists result_json; split; [reflexivity|] | left; now exists e].
  destruct (render_json S result_json) as [[]|e]; simpl;
    [right; now split | left; now exists e].
Qed.

(** X23. [match_resume] lets no [Exception] out: whenever an exception
    leaves it, it is not an instance of [Exception]. *)
Theorem match_resume_contains_exceptions (R : Readers) (P : Parsers)
        (S : Service) (resume : UploadFile) (jd el : pystr) (e : exn) :
  match_resume_request R P S resume jd el = Raise e ->
  is_Exception e = false.
Proof.
  unfold match_resume_request.
  destruct (match_resume_body R P S resume jd el)
    as [v | [[sc d | cls msg] | msg | msg]]; simpl; try discriminate.
  destruct cls; simpl; try discriminate.
  intros H. now injection H as <-.
Qed.

Lemma match_resume_contains_exceptions_witness :
  is_Exception (PyExc KeyboardInterrupt []) = false.
Proof.
  apply (match_resume_contains_exceptions Samples.readers Samples.parsers
           {| system_content := [];
              post_chat_completions :=
                fun _ => Raise (PyExc KeyboardInterrupt []);
              render_json := fun _ => Ok tt |}
           (Samples.upload "cv.docx") [] []).
  reflexivity.
Defined.

(** X24. When neither the parsers nor the service raise an
    [HTTPException], every answer of [match_resume] has status 200 or
    500: no other status, and none of the 4xx range, is ever sent. *)
Theorem match_resume_status (R : Readers) (P : Parsers) (S : Service)
        (resume : UploadFile) (jd el : pystr) (response : JSONResponse) :
  raises_no_http (json_loads P) ->
  raises_no_http (literal_eval P) ->
  raises_no_http (post_chat_completions S) ->
  raises_no_http (render_json S) ->
  match_resume_request R P S resume jd el = Ok response ->
  status_code response = 200%Z \/ status_code response = 500%Z.
Proof.
  intros Hj Hl Hp Hr H. unfold match_resume_request in H.
  destruct (match_resume_body R P S resume jd el)
    as [v | [[sc d | cls msg] | msg | msg]] eqn:Hb; simpl in H.
  - injection H as <-. now left.
  - injection H as <-. right. simpl.
    apply match_resume_body_steps in Hb
      as [(e & He & Ho) | (text & _ & [(e & He & Ho) | (rj & _ & Hb)])].
    + injection Ho as <-.
      apply extract_raise_shape in He as [[d0 E] | E];
        [now injection E | discriminate].
    + injection Ho as <-. now apply Hp in He.
    + destruct Hb as [(e & He & Ho) | (mr & _ & Hb)].
      * injection Ho as <-. now apply first_choice_content_no_http in He.
      * destruct Hb as [(e & He & Ho) | (res & _ & Hb)].
        -- injection Ho as <-. now apply clean_json_value_no_http in He.
        -- destruct Hb as [(e & He & Ho) | [_ Ho]]; [|discriminate].
           injection Ho as <-. now apply Hr in He.
  - destruct cls; simpl in H; try discriminate;
      injection H as <-; now right.
  - injection H as <-. now right.
  - injection H as <-. now right.
Qed.

Lemma match_resume_status_witness :
  status_code {| status_code := 200; body := PyDict [] |} = 200%Z
  \/ status_code {| status_code := 200; body := PyDict [] |} = 500%Z.
Proof.
  apply (match_resume_status Samples.readers Samples.parsers
           (ServiceSamples.answering (ServiceSamples.completion (py "{}")))
           (Samples.upload "cv.docx") [] []).
  - intros s sc d. unfold Samples.parsers, json_loads, Samples.sample_json_loads.
    repeat match goal with
           | |- context [if ?b then _ else _] => destruct b
           end; discriminate.
  - intros s sc d.
    unfold Samples.parsers, literal_eval, Samples.sample_literal_eval.
    destruct (pystr_eqb s (py "foo")); [discriminate|].
    destruct (pystr_eqb s (py "{1: 2}")); discriminate.
  - intros a sc d. discriminate.
  - intros a sc d. discriminate.
  - reflexivity.
Defined.

Lemma match_resume_returned (R : Readers) (P : Parsers) (S : Service)
      (resume : UploadFile) (jd el text : pystr)
      (response_json match_result result_json : pyvalue) :
  extract_text_from_file R resume = Ok text ->
  post_chat_completions S (payload S (convert_to_single_string text) jd el)
  = Ok response_json ->
  first_choice_content response_json = Returned match_result ->
  clean_json_value P match_result = Returned result_json ->
  render_json S result_json = Ok tt ->
  match_resume_request R P S resume jd el
  = Ok {| status_code := 200; body := result_json |}.
Proof.
  intros He Hp Hf Hc Hr. unfold match_resume_request, match_resume_body.
  rewrite He. simpl. rewrite Hp. simpl. rewrite Hf. simpl.
  rewrite Hc. simpl. now rewrite Hr.
Qed.

Lemma match_resume_thrown_late (R : Readers) (P : Parsers) (S : Service)
      (resume : UploadFile) (jd el text : pystr) (response_json : pyvalue)
      (e : raised) :
  extract_text_from_file R resume = Ok text ->
  post_chat_completions S (payload S (convert_to_single_string text) jd el)
  = Ok response_json ->
  (first_choice_content response_json = Thrown e
   \/ exists match_result,
        first_choice_content response_json = Returned match_result
        /\ clean_json_value P match_result = Thrown e) ->
  match_resume_request R P S resume jd el
  = match_resume_handlers (Thrown e).
Proof.
  intros He Hp H. unfold match_resume_request, match_resume_body.
  rewrite He. simpl. rewrite Hp. simpl.
  destruct H as [Hf | (mr & Hf & Hc)]; rewrite Hf; simpl;
    [reflexivity|]. now rewrite Hc.
Qed.

Lemma clean_json_string_first (P : Parsers) (json_string : pystr)
      (parsed cleaned : pyvalue) :
  json_loads P (working_string json_string) = Ok parsed ->
  convert_parsed P parsed = Ok cleaned ->
  clean_json_string P json_string = Ok cleaned.
Proof.
  intros Hp Hc. unfold clean_json_string.
  now rewrite (clean_json_string_first_run P json_string parsed cleaned Hp Hc).
Qed.

(** X25. A key that the answer of the service lacks is replaced by its
    default, down to the text of an empty JSON object: an answer without
    [choices], a first choice without [message] and a message without
    [content] all give that text; when [json.loads] reads it as the
    empty object, [match_resume] answers with status 200 and the empty
    object. *)
Theorem missing_keys_default (response : list (pyvalue * pyvalue)) :
  (dict_get response (py "choices") = None ->
   first_choice_content (PyDict response) = Returned (PyStr (py "{}")))
  /\ (forall choice others,
        dict_get response (py "choices")
        = Some (PyList (PyDict choice :: others)) ->
        dict_get choice (py "message") = None ->
        first_choice_content (PyDict response) = Returned (PyStr (py "{}")))
  /\ (forall choice others message,
        dict_get response (py "choices")
        = Some (PyList (PyDict choice :: others)) ->
        dict_get choice (py "message") = Some (PyDict message) ->
        dict_get message (py "content") = None ->
        first_choice_content (PyDict response) = Returned (PyStr (py "{}")))
  /\ (forall R P S resume jd el text,
        extract_text_from_file R resume = Ok text ->
        post_chat_completions S
          (payload S (convert_to_single_string text) jd el)
        = Ok (PyDict response) ->
        first_choice_content (PyDict response) = Returned (PyStr (py "{}")) ->
        json_loads P (py "{}") = Ok (PyDict []) ->
        render_json S (PyDict []) = Ok tt ->
        match_resume_request R P S resume jd el
        = Ok {| status_code := 200; body := PyDict [] |}).
Proof.
  unfold first_choice_content. repeat split.
  - intros H. cbn [py_get and_then]. rewrite H.
    cbn [py_get py_first and_then dict_get]. reflexivity.
  - intros choice others H1 H2. cbn [py_get and_then]. rewrite H1.
    cbn [py_get py_first and_then]. rewrite H2.
    cbn [py_get and_then dict_get]. reflexivity.
  - intros choice others message H1 H2 H3. cbn [py_get and_then].
    rewrite H1. cbn [py_get py_first and_then]. rewrite H2.
    cbn [py_get and_then]. now rewrite H3.
  - intros R P S resume jd el text He Hp Hf Hj Hr.
    apply (match_resume_returned R P S resume jd el text (PyDict response)
             (PyStr (py "{}"))); trivial.
    unfold clean_json_value.
    now rewrite (clean_json_string_first P (py "{}") (PyDict []) (PyDict [])).
Qed.

Lemma missing_keys_default_witness :
  first_choice_content (PyDict []) = Returned (PyStr (py "{}"))
  /\ match_resume_request Samples.readers Samples.parsers
       (ServiceSamples.answering (PyDict [])) (Samples.upload "cv.docx") [] []
     = Ok {| status_code := 200; body := PyDict [] |}.
Proof.
  destruct (missing_keys_default []) as (H1 & _ & _ & H4).
  split; [now apply H1|].
  apply (H4 Samples.readers Samples.parsers
            (ServiceSamples.answering (PyDict [])) (Samples.upload "cv.docx")
            [] [] (py "Hello World")); reflexivity.
Defined.

(** X26. An answer whose [choices] is the empty list is a failure of the
    request: [match_resume] answers with status 500 and the message of
    the [IndexError] as detail. *)
Theorem empty_choices_is_500 (R : Readers) (P : Parsers) (S : Service)
        (resume : UploadFile) (jd el text : pystr)
        (response : list (pyvalue * pyvalue)) :
  extract_text_from_file R resume = Ok text ->
  post_chat_completions S (payload S (convert_to_single_string text) jd el)
  = Ok (PyDict response) ->
  dict_get response (py "choices") = Some (PyList []) ->
  match_resume_request R P S resume jd el
  = Ok {| status_code := 500;
          body := detail_body (py "list index out of range") |}.
Proof.
  intros He Hp Hc.
  rewrite (match_resume_thrown_late R P S resume jd el text (PyDict response)
             (IndexError (py "list index out of range")) He Hp);
    [reflexivity|].
  left. unfold first_choice_content. cbn [py_get and_then]. now rewrite Hc.
Qed.

Lemma empty_choices_is_500_witness :
  match_resume_request Samples.readers Samples.parsers
    (ServiceSamples.answering (PyDict [(PyStr (py "choices"), PyList [])]))
    (Samples.upload "cv.docx") [] []
  = Ok {| status_code := 500;
          body := detail_body (py "list index out of range") |}.
Proof.
  apply (empty_choices_is_500 Samples.readers Samples.parsers
           (ServiceSamples.answering
              (PyDict [(PyStr (py "choices"), PyList [])]))
           (Samples.upload "cv.docx") [] [] (py "Hello World")
           [(PyStr (py "choices"), PyList [])]); reflexivity.
Defined.

(** X27. When the content of the first choice is neither a string nor
    bytes ([null], a number, a list, an object), [match_resume] answers
    with status 500 and, as detail, the message of the [AttributeError]
    that the missing method [strip] raises. *)
Theorem non_string_content_is_500 (R : Readers) (P : Parsers) (S : Service)
        (resume : UploadFile) (jd el text : pystr)
        (response_json match_result : pyvalue) :
  extract_text_from_file R resume = Ok text ->
  post_chat_completions S (payload S (convert_to_single_string text) jd el)
  = Ok response_json ->
  first_choice_content response_json = Returned match_result ->
  (forall s, match_result <> PyStr s) ->
  (forall b, match_result <> PyBytes b) ->
  match_resume_request R P S resume jd el
  = Ok {| status_code := 500;
          body := detail_body
                    (SQ :: type_name match_result ++ [SQ]
                     ++ py " object has no attribute " ++ [SQ]
                     ++ py "strip" ++ [SQ]) |}.
Proof.
  intros He Hp Hf Hs Hb.
  rewrite (match_resume_thrown_late R P S resume jd el text response_json
             (Exn (no_attribute match_result (py "strip"))) He Hp);
    [reflexivity|].
  right. exists match_result. split; [assumption|].
  destruct match_result; try reflexivity.
  - now destruct (Hs s).
  - now destruct (Hb b).
Qed.

Lemma non_string_content_is_500_witness :
  match_resume_request Samples.readers Samples.parsers
    (ServiceSamples.answering
       (PyDict [(PyStr (py "choices"),
                 PyList [PyDict [(PyStr (py "message"),
                                  PyDict [(PyStr (py "content"), PyNone)])]])]))
    (Samples.upload "cv.docx") [] []
  = Ok {| status_code := 500;
          body := detail_body
                    (py "'NoneType' object has no attribute 'strip'") |}.
Proof.
  apply (non_string_content_is_500 Samples.readers Samples.parsers
           (ServiceSamples.answering
              (PyDict [(PyStr (py "choices"),
                        PyList [PyDict [(PyStr (py "message"),
                                         PyDict [(PyStr (py "content"),
                                                  PyNone)])]])]))
           (Samples.upload "cv.docx") [] [] (py "Hello World")
           (PyDict [(PyStr (py "choices"),
                     PyList [PyDict [(PyStr (py "message"),
                                      PyDict [(PyStr (py "content"),
                                               PyNone)])]])])
           PyNone);
    try reflexivity; discriminate.
Defined.

(** X28. In every body [match_resume] sends, the cleaned result as well
    as the detail of an error, every key the walk reaches is a string
    that [str.lower] leaves as it is, and is once in its dict. (The keys
    need not be in snake_case, and the keys of a dict inside a tuple or a
    set are sent as they were parsed.) *)
Theorem match_resume_body_normalized (R : Readers) (P : Parsers) (S : Service)
        (resume : UploadFile) (jd el : pystr) (response : JSONResponse) :
  match_resume_request R P S resume jd el = Ok response ->
  lower_cased (body response) /\ distinct_keys (body response).
Proof.
  unfold match_resume_request. intros H.
  destruct (match_resume_body R P S resume jd el)
    as [v | [[sc d | cls msg] | msg | msg]] eqn:Hb; simpl in H.
  - injection H as <-. simpl.
    apply match_resume_body_steps in Hb
      as [(e & _ & Ho) | (text & _ & [(e & _ & Ho) | (rj & _ & Hb)])];
      try discriminate.
    destruct Hb as [(e & _ & Ho) | (mr & _ & Hb)]; [discriminate|].
    destruct Hb as [(e & _ & Ho) | (res & Hc & Hb)]; [discriminate|].
    destruct Hb as [(e & _ & Ho) | [_ Ho]]; [discriminate|].
    injection Ho as <-.
    apply clean_json_value_ok in Hc as (s & _ & Hc).
    apply try_attempts_ok in Hc as [-> | [parsed Hp]];
      [apply failure_record_normalized|].
    destruct (convert_output _ _ _ _ Hp) as (? & ? & ?). now split.
  - injection H as <-. apply detail_body_normalized.
  - destruct cls; simpl in H; try discriminate;
      injection H as <-; apply detail_body_normalized.
  - injection H as <-. apply detail_body_normalized.
  - injection H as <-. apply detail_body_normalized.
Qed.

Lemma match_resume_body_normalized_witness :
  lower_cased (detail_body (py "list index out of range"))
  /\ distinct_keys (detail_body (py "list index out of range")).
Proof.
  apply (match_resume_body_normalized Samples.readers Samples.parsers
           (ServiceSamples.answering
              (PyDict [(PyStr (py "choices"), PyList [])]))
           (Samples.upload "cv.docx") [] []
           {| status_code := 500;
              body := detail_body (py "list index out of range") |}).
  reflexivity.
Defined.

(** X29. A recovery failure does not fail the request: when the content
    of the first choice is a string on which all five attempts fail and
    the failure record renders, [match_resume] answers with status 200
    and the failure record. *)
Theorem recovery_failure_is_200 (R : Readers) (P : Parsers) (S : Service)
        (resume : UploadFile) (jd el text content_text : pystr)
        (response_json : pyvalue) :
  extract_text_from_file R resume = Ok text ->
  post_chat_completions S (payload S (convert_to_single_string text) jd el)
  = Ok response_json ->
  first_choice_content response_json = Returned (PyStr content_text) ->
  all_attempts_fail P (working_string content_text) ->
  render_json S (failure_record (working_string content_text)) = Ok tt ->
  match_resume_request R P S resume jd el
  = Ok {| status_code := 200;
          body := failure_record (working_string content_text) |}.
Proof.
  intros He Hp Hf Ha Hr.
  apply (match_resume_returned R P S resume jd el text response_json
           (PyStr content_text)); trivial.
  unfold clean_json_value, clean_json_string, clean_json_string_run.
  now rewrite (try_attempts_all_fail _ _ _ _ Ha).
Qed.

Lemma recovery_failure_is_200_witness :
  match_resume_request Samples.readers Samples.parsers
    (ServiceSamples.answering (ServiceSamples.completion Samples.fenced_text))
    (Samples.upload "cv.docx") [] []
  = Ok {| status_code := 200;
          body := failure_record (working_string Samples.fenced_text) |}.
Proof.
  apply (recovery_failure_is_200 Samples.readers Samples.parsers
           (ServiceSamples.answering
              (ServiceSamples.completion Samples.fenced_text))
           (Samples.upload "cv.docx") [] [] (py "Hello World")
           Samples.fenced_text
           (ServiceSamples.completion Samples.fenced_text));
    try reflexivity.
  repeat constructor; eexists; split; reflexivity.
Defined.

(** X30. When the extraction fails, the service is not asked: whatever
    the service, the parsers and the two text fields, [match_resume]
    answers with status 500 and a detail that starts with the words
    [Error extracting text: ]. It is the answer of the handlers alone, as
    in [match_resume] with any remainder. *)
Theorem extraction_failure_is_500 (R : Readers) (P : Parsers) (S : Service)
        (resume : UploadFile) (jd el : pystr) (e : exn)
        (analyse : pystr -> result pyvalue) :
  extract_text_from_file R resume = Raise e ->
  is_Exception e = true ->
  (exists d,
     match_resume_request R P S resume jd el
     = Ok {| status_code := 500;
             body := detail_body (py "Error extracting text: " ++ d) |})
  /\ match_resume_request R P S resume jd el = match_resume R analyse resume.
Proof.
  intros He Hx.
  destruct (extract_raise_shape R resume e He) as [[d ->] | E];
    [|congruence].
  unfold match_resume_request, match_resume_body, match_resume.
  rewrite He. simpl. split; [now exists d | reflexivity].
Qed.

Lemma extraction_failure_is_500_witness :
  exists d,
    match_resume_request Samples.readers Samples.parsers
      (ServiceSamples.answering PyNone) (Samples.upload "resume.rtf") [] []
    = Ok {| status_code := 500;
            body := detail_body (py "Error extracting text: " ++ d) |}.
Proof.
  apply (proj1 (extraction_failure_is_500 Samples.readers Samples.parsers
                  (ServiceSamples.answering PyNone)
                  (Samples.upload "resume.rtf") [] []
                  (HTTPException 500
                     (py "Error extracting text: 400: Unsupported file type"))
                  (fun _ => Ok PyNone) eq_refl eq_refl)).
Defined.
